(** * SimSRE: a shallow embedding of [simsre.py]

    The simulation models one SRE team as a state machine driven once per
    clock tick.  This development embeds the team object, its work queue,
    the admission step ([assign_work]), the capacity-bounded processing
    loop ([process_work]), the history bookkeeping ([census]) and the
    driver loop ([run]), together with the helpers [enum],
    [clear_first_of_type] and [sum_total_work] and the last census of the
    script, and proves properties of them.

    Conventions of the embedding:
    - Python [int] is [Z]; the enum [SRE_WORK_TYPES] is the inductive
      [WorkType], whose integer values 1..4 are [work_type_value];
    - [collections.deque] is a [list] (head = left end);
    - [dict], [defaultdict] and [Counter] keyed by work types are
      [gmap WorkType _], a missing key of a [defaultdict] reading as the
      default;
    - the module-level constants are the fields of a [Config] record whose
      instance [default_config] holds the values written in the source;
    - [random.randint(1,10)] reads the next element of a stream of draws
      [nat -> Z], the position in the stream being threaded through;
    - [print] calls, the simpy environment and the plotting code have no
      effect on the team state and are left out. *)

From Stdlib Require Import ZArith List Lia Bool.
From stdpp Require Import base option list strings gmap fin_maps.
From Equations Require Import Equations.
Import ListNotations.
Local Open Scope Z_scope.

(** ** Work types *)

(** [SRE_WORK_TYPES = enum(OPERATIONAL=1, IN_TEAM_PROJECT=2,
    CROSS_TEAM_PROJECT=3, ONBOARDING=4)]. *)
Inductive WorkType : Type :=
| OPERATIONAL
| IN_TEAM_PROJECT
| CROSS_TEAM_PROJECT
| ONBOARDING.

Definition work_type_value (w : WorkType) : Z :=
  match w with
  | OPERATIONAL => 1
  | IN_TEAM_PROJECT => 2
  | CROSS_TEAM_PROJECT => 3
  | ONBOARDING => 4
  end.

Definition work_type_of_value (z : Z) : option WorkType :=
  match z with
  | 1 => Some OPERATIONAL
  | 2 => Some IN_TEAM_PROJECT
  | 3 => Some CROSS_TEAM_PROJECT
  | 4 => Some ONBOARDING
  | _ => None
  end.

#[global] Instance WorkType_eq_dec : EqDecision WorkType.
Proof. solve_decision. Defined.

#[global] Instance WorkType_countable : Countable WorkType.
Proof.
  refine (inj_countable work_type_value work_type_of_value _).
  intros w. destruct w; reflexivity.
Defined.

(** The four enum values, in the order of the literal [[1, 2, 3, 4]] that
    [census] starts from. *)
Definition all_work_types : list WorkType :=
  [OPERATIONAL; IN_TEAM_PROJECT; CROSS_TEAM_PROJECT; ONBOARDING].

(** ** Binary64 arithmetic used by the growth computation

    [self.operational_work * QUARTERLY_GROWTH] multiplies an [int] by a
    [float], and [round] maps the product back to an [int].  A finite
    double is a pair (mantissa, exponent) of value [mant * 2^expo] whose
    mantissa has at most 53 bits.  The exponent is not bounded here:
    [finite] tells whether a value is within the range of the doubles, and
    the growth step with its [OverflowError] is
    [add_scaled_operational_checked].  Subnormals and NaN are outside this
    model: they need magnitudes far beyond what the simulation holds. *)
Module Float64.

Record t : Type := mk { mant : Z; expo : Z }.

(** Nearest integer to [n / 2^k], ties to the even one ([k > 0]). *)
Definition rne_shift (n k : Z) : Z :=
  let q := Z.shiftr n k in
  let r := n - Z.shiftl q k in
  let half := Z.shiftl 1 (k - 1) in
  if r <? half then q
  else if half <? r then q + 1
  else if Z.even q then q else q + 1.

Definition bit_length (n : Z) : Z :=
  if n =? 0 then 0 else Z.log2 (Z.abs n) + 1.

(** Round a value [m * 2^e] to 53 significant bits, to nearest even. *)
Definition round53 (m e : Z) : t :=
  let n := bit_length m in
  if n <=? 53 then mk m e
  else mk (rne_shift m (n - 53)) (e + (n - 53)).

(** [float(i)] for a Python [int]. *)
Definition of_int (i : Z) : t := round53 i 0.

(** [x * y]. *)
Definition mul (x y : t) : t := round53 (mant x * mant y) (expo x + expo y).

(** [round(x)] with one argument: nearest [int], ties to even. *)
Definition py_round (x : t) : Z :=
  if 0 <=? expo x then Z.shiftl (mant x) (expo x)
  else rne_shift (mant x) (- expo x).

(** [i < x] for a Python [int] [i] and a float [x]: Python compares the
    exact values. *)
Definition int_ltb (i : Z) (x : t) : bool :=
  if 0 <=? expo x then i <? Z.shiftl (mant x) (expo x)
  else Z.shiftl i (- expo x) <? mant x.

(** Whether a value rounded to 53 bits is within the range of the
    doubles, that is below [2^1024] in magnitude; beyond it the conversion
    of an [int] raises [OverflowError] and a product is an infinity. *)
Definition finite (x : t) : bool :=
  Z.abs (mant x) * 2 ^ Z.max 0 (expo x)
  <? 2 ^ 1024 * 2 ^ Z.max 0 (- expo x).

(** The double nearest to the literal [1.15], 0x3FF2666666666666. *)
Definition lit_1_15 : t := mk 5179139571476070 (-52).

(** The literal [0.5]. *)
Definition lit_0_5 : t := mk 1 (-1).

End Float64.

(** ** Constants *)

Record Config : Type := mkConfig {
  (** How many clock ticks the simulation goes for. *)
  SIM_DURATION : Z;
  (** Growth of operational work per clock tick. *)
  QUARTERLY_GROWTH : Float64.t;
  (** The number of work units a team can process in a clock tick. *)
  SRE_TEAM_CAPACITY : Z;
  (** The maximum number of onboardings a team can do. *)
  SRE_TEAM_ONBOARDINGS_LIMIT : Z;
  (** The baseline operational work. *)
  SRE_BASELINE_OPERATIONAL : Z;
  (** The cap on operational work available to be assigned. *)
  SRE_TEAM_MAX_OPERATIONAL : Z
}.

Definition default_config : Config := {|
  SIM_DURATION := 100;
  QUARTERLY_GROWTH := Float64.lit_1_15;
  SRE_TEAM_CAPACITY := 10;
  SRE_TEAM_ONBOARDINGS_LIMIT := 10;
  SRE_BASELINE_OPERATIONAL := 1;
  SRE_TEAM_MAX_OPERATIONAL := 20
|}.

(** The default distribution of work, for a team starting from scratch. *)
Definition SRE_WORK_DISTRIBUTION : list WorkType :=
  [OPERATIONAL; OPERATIONAL; OPERATIONAL; OPERATIONAL;
   IN_TEAM_PROJECT; IN_TEAM_PROJECT; IN_TEAM_PROJECT; IN_TEAM_PROJECT;
   CROSS_TEAM_PROJECT; CROSS_TEAM_PROJECT].

(** ** The team object *)

Record SRE_team : Type := mkTeam {
  work_items : list WorkType;
  onboarding_in_progress : bool;
  onboardings : Z;
  operational_work : Z;
  ticks : Z;
  assigned_history_dict : gmap WorkType (list Z);
  performed_history_dict : gmap WorkType (list Z);
  tracking : gmap WorkType Z
}.

(** Field updates ([self.f = v]). *)
Definition set_work_items (q : list WorkType) (s : SRE_team) : SRE_team :=
  mkTeam q (onboarding_in_progress s) (onboardings s) (operational_work s)
         (ticks s) (assigned_history_dict s) (performed_history_dict s)
         (tracking s).

Definition set_onboarding_in_progress (b : bool) (s : SRE_team) : SRE_team :=
  mkTeam (work_items s) b (onboardings s) (operational_work s)
         (ticks s) (assigned_history_dict s) (performed_history_dict s)
         (tracking s).

Definition set_onboardings (n : Z) (s : SRE_team) : SRE_team :=
  mkTeam (work_items s) (onboarding_in_progress s) n (operational_work s)
         (ticks s) (assigned_history_dict s) (performed_history_dict s)
         (tracking s).

Definition set_ticks (n : Z) (s : SRE_team) : SRE_team :=
  mkTeam (work_items s) (onboarding_in_progress s) (onboardings s)
         (operational_work s) n (assigned_history_dict s)
         (performed_history_dict s) (tracking s).

Definition set_assigned_history_dict (h : gmap WorkType (list Z))
    (s : SRE_team) : SRE_team :=
  mkTeam (work_items s) (onboarding_in_progress s) (onboardings s)
         (operational_work s) (ticks s) h (performed_history_dict s)
         (tracking s).

Definition set_performed_history_dict (h : gmap WorkType (list Z))
    (s : SRE_team) : SRE_team :=
  mkTeam (work_items s) (onboarding_in_progress s) (onboardings s)
         (operational_work s) (ticks s) (assigned_history_dict s) h
         (tracking s).

Definition set_tracking (t : gmap WorkType Z) (s : SRE_team) : SRE_team :=
  mkTeam (work_items s) (onboarding_in_progress s) (onboardings s)
         (operational_work s) (ticks s) (assigned_history_dict s)
         (performed_history_dict s) t.

(** ** Queue and dictionary primitives *)

(** [deque.popleft()]: [None] stands for the [IndexError] raised on an
    empty deque. *)
Definition popleft (q : list WorkType) : option (WorkType * list WorkType) :=
  match q with
  | [] => None
  | x :: q' => Some (x, q')
  end.

(** [deque.remove(x)] and [list.remove(x)]: drop the first occurrence;
    [None] stands for the [ValueError] raised when there is none. *)
Fixpoint remove_first (x : WorkType) (q : list WorkType)
    : option (list WorkType) :=
  match q with
  | [] => None
  | y :: q' =>
      if decide (y = x) then Some q'
      else match remove_first x q' with
           | Some r => Some (y :: r)
           | None => None
           end
  end.

(** Reading a [defaultdict(int)] / [defaultdict(list)] entry. *)
Definition tally (t : gmap WorkType Z) (k : WorkType) : Z :=
  default 0 (t !! k).

Definition series (h : gmap WorkType (list Z)) (k : WorkType) : list Z :=
  default [] (h !! k).

(** The work performed in a tick, all four work types together. *)
Definition total_tally (t : gmap WorkType Z) : Z :=
  tally t OPERATIONAL + tally t IN_TEAM_PROJECT
  + tally t CROSS_TEAM_PROJECT + tally t ONBOARDING.

(** [d[k] += 1] on a [defaultdict(int)] or a [Counter]. *)
Definition incr (k : WorkType) (t : gmap WorkType Z) : gmap WorkType Z :=
  <[k := tally t k + 1]> t.

(** [d[k].append(v)] on a [defaultdict(list)]. *)
Definition history_append (h : gmap WorkType (list Z)) (k : WorkType) (v : Z)
    : gmap WorkType (list Z) :=
  <[k := series h k ++ [v]]> h.

(** [collections.Counter(iterable)]. *)
Definition Counter (q : list WorkType) : gmap WorkType Z :=
  foldl (fun c x => incr x c) ∅ q.

(** [Counter.most_common()]: the items sorted by decreasing count (a stable
    sort).  Python starts from the items in insertion order, [map_to_list]
    gives them in key order; only entries with equal counts can come out in
    another order, and [census] appends each entry to the list of its own
    key ([record_counts_series] below does not depend on the order). *)
Fixpoint insert_by_count (x : WorkType * Z) (l : list (WorkType * Z))
    : list (WorkType * Z) :=
  match l with
  | [] => [x]
  | y :: l' => if x.2 <? y.2 then y :: insert_by_count x l' else x :: l
  end.

Definition most_common (c : gmap WorkType Z) : list (WorkType * Z) :=
  foldr insert_by_count [] (map_to_list c).

(** ** Methods of [SRE_team] *)

(** [__init__]: the simpy process registration has no effect on the
    fields. *)
Definition SRE_team_init (cfg : Config) : SRE_team := {|
  work_items := [];
  onboarding_in_progress := false;
  onboardings := 0;
  operational_work := SRE_BASELINE_OPERATIONAL cfg;
  ticks := 0;
  assigned_history_dict := ∅;
  performed_history_dict := ∅;
  tracking := ∅
|}.

(** [add_work]: add work of the specified type at the right end. *)
Definition add_work (work_type : WorkType) (s : SRE_team) : SRE_team :=
  set_work_items (work_items s ++ [work_type]) s.

(** [clear_first_of_type]: the [ValueError] is caught and the queue is
    left as it is. *)
Definition clear_first_of_type (supplied_type : WorkType) (s : SRE_team)
    : SRE_team :=
  match remove_first supplied_type (work_items s) with
  | Some q => set_work_items q s
  | None => s
  end.

(** One of the two recording loops of [census]: every [(k, v)] of
    [most_common()] is appended to the history of [k] and [k] is struck off
    the list of unused work types; the work types left get a 0. *)
Definition record_entry
    (acc : gmap WorkType (list Z) * list WorkType) (kv : WorkType * Z)
    : gmap WorkType (list Z) * list WorkType :=
  (history_append acc.1 kv.1 kv.2,
   if decide (kv.1 ∈ acc.2) then
     match remove_first kv.1 acc.2 with Some u => u | None => acc.2 end
   else acc.2).

Definition record_counts (items : list (WorkType * Z))
    (h : gmap WorkType (list Z)) : gmap WorkType (list Z) :=
  let unused_work_types := all_work_types in
  let acc := foldl record_entry (h, unused_work_types) items in
  foldl (fun h work_type => history_append h work_type 0) acc.1 acc.2.

(** [census]: record the history of the queue contents and of the work
    performed. *)
Definition census (s : SRE_team) : SRE_team :=
  let s1 :=
    set_assigned_history_dict
      (record_counts (most_common (Counter (work_items s)))
                     (assigned_history_dict s)) s in
  set_performed_history_dict
    (record_counts (most_common (tracking s1)) (performed_history_dict s1)) s1.

Section Simulation.

Variable cfg : Config.

(** [draws k] is the value returned by the [k]-th call of
    [random.randint(1,10)] of the run. *)
Variable draws : nat -> Z.

Definition randint (k : nat) : Z * nat := (draws k, S k).

(** The local [new_operational_work] of [add_scaled_operational], for a
    baseline and a product within the range of the doubles;
    [new_operational_work_checked] has the [OverflowError] beyond it. *)
Definition new_operational_work (s : SRE_team) : Z :=
  Float64.py_round
    (Float64.mul (Float64.of_int (operational_work s)) (QUARTERLY_GROWTH cfg))
  + onboardings s.

(** [add_scaled_operational]; [range(delta)] is empty for [delta <= 0]. *)
Definition add_scaled_operational (s : SRE_team) : SRE_team :=
  let delta := new_operational_work s - operational_work s in
  if operational_work s <? SRE_TEAM_MAX_OPERATIONAL cfg then
    Nat.iter (Z.to_nat delta) (add_work OPERATIONAL) s
  else s.

(** [assign_work]: both draws are made whatever the state is, the
    [randint] call being the first operand of the [and]. *)
Definition assign_work (s : SRE_team) (k : nat) : SRE_team * nat :=
  let (r1, k1) := randint k in
  let s1 :=
    if 9 <? r1 then
      clear_first_of_type IN_TEAM_PROJECT
        (clear_first_of_type OPERATIONAL
           (clear_first_of_type OPERATIONAL
              (add_work CROSS_TEAM_PROJECT s)))
    else s in
  let (r2, k2) := randint k1 in
  let s2 :=
    if (8 <? r2) && negb (onboarding_in_progress s1)
       && (onboardings s1 <? SRE_TEAM_ONBOARDINGS_LIMIT cfg)
    then add_work ONBOARDING
           (set_onboardings (onboardings s1 + 1)
              (set_onboarding_in_progress true s1))
    else s1 in
  (add_scaled_operational s2, k2).

(** *** The processing loop *)

(** The locals of [process_work] together with the team and the position
    in the stream of draws. *)
Record loop_state : Type := mkLoop {
  capacity : Z;
  op_counter : Z;
  team : SRE_team;
  rng : nat
}.

(** Why the [while] loop was left. *)
Inductive loop_exit : Type :=
| CapacityReached   (* the condition [capacity < SRE_TEAM_CAPACITY] failed *)
| QueueEmpty.       (* [popleft] raised [IndexError], caught: [break] *)

(** [self.tracking[k] += 1]. *)
Definition track (k : WorkType) (s : SRE_team) : SRE_team :=
  set_tracking (incr k (tracking s)) s.

(** [op_counter < 0.5 * SRE_TEAM_CAPACITY]. *)
Definition below_op_threshold (n : Z) : bool :=
  Float64.int_ltb n
    (Float64.mul Float64.lit_0_5 (Float64.of_int (SRE_TEAM_CAPACITY cfg))).

(** The body of the [while] loop; [None] is the [IndexError] of
    [popleft], which the [except] clause turns into [break]. *)
Definition loop_body (ls : loop_state) : option loop_state :=
  match popleft (work_items (team ls)) with
  | None => None
  | Some (work_item, q) =>
      let t := set_work_items q (team ls) in
      Some
        match work_item with
        | IN_TEAM_PROJECT =>
            mkLoop (capacity ls + 1) (op_counter ls)
                   (track IN_TEAM_PROJECT (add_work work_item t)) (rng ls)
        | OPERATIONAL =>
            if below_op_threshold (op_counter ls) then
              mkLoop (capacity ls + 1) (op_counter ls + 1)
                     (track OPERATIONAL t) (rng ls)
            else
              mkLoop (capacity ls) (op_counter ls) t (rng ls)
        | CROSS_TEAM_PROJECT =>
            let (r, k) := randint (rng ls) in
            let t1 := if 5 <? r then add_work CROSS_TEAM_PROJECT t else t in
            mkLoop (capacity ls + 1) (op_counter ls)
                   (track CROSS_TEAM_PROJECT t1) k
        | ONBOARDING =>
            mkLoop (capacity ls + 2) (op_counter ls)
                   (track CROSS_TEAM_PROJECT
                      (set_onboarding_in_progress false
                         (add_work OPERATIONAL
                            (add_work IN_TEAM_PROJECT t))))
                   (rng ls)
        end
  end.

(** Every pass either uses capacity or shortens the queue. *)
Definition loop_measure (ls : loop_state) : nat :=
  (Z.to_nat (2 * (SRE_TEAM_CAPACITY cfg - capacity ls))
   + length (work_items (team ls)))%nat.

(** Case analysis that keeps the equation, for the termination proof. *)
Definition inspect {A : Type} (x : A) : {y : A | x = y} :=
  exist _ x eq_refl.

(** [while capacity < SRE_TEAM_CAPACITY: try: ... except IndexError: break] *)
Equations? process_loop (ls : loop_state) : loop_state * loop_exit
  by wf (loop_measure ls) lt :=
  process_loop ls with inspect (capacity ls <? SRE_TEAM_CAPACITY cfg) := {
    | exist _ false _ := (ls, CapacityReached);
    | exist _ true Hc with inspect (loop_body ls) := {
        | exist _ None _ := (ls, QueueEmpty);
        | exist _ (Some ls') Hb := process_loop ls' } }.
Proof.
  apply Z.ltb_lt in Hc. clear process_loop.
  unfold loop_body, loop_measure in *.
  destruct ls as [c o t k]; simpl in *.
  destruct (work_items t) as [|w q]; simpl in Hb; [discriminate|].
  destruct w; simpl in Hb;
    repeat match type of Hb with
           | context [if ?b then _ else _] => destruct b
           end;
    inversion Hb; subst; simpl; rewrite ?length_app; simpl; lia.
Qed.

(** The executions of the [while] loop, pass by pass: [loop_run n ls
    final ex] says that started in [ls] the loop makes [n] passes and is
    left in [final] for the reason [ex]. *)
Inductive loop_run : nat -> loop_state -> loop_state -> loop_exit -> Prop :=
| loop_run_capacity ls :
    SRE_TEAM_CAPACITY cfg <= capacity ls ->
    loop_run 0 ls ls CapacityReached
| loop_run_empty ls :
    capacity ls < SRE_TEAM_CAPACITY cfg ->
    work_items (team ls) = [] ->
    loop_run 0 ls ls QueueEmpty
| loop_run_pass n ls ls' final ex :
    capacity ls < SRE_TEAM_CAPACITY cfg ->
    loop_body ls = Some ls' ->
    loop_run n ls' final ex ->
    loop_run (S n) ls final ex.

(** [process_work]: the counters start at 0 and [tracking] is cleared. *)
Definition process_work_loop (s : SRE_team) (k : nat)
    : loop_state * loop_exit :=
  process_loop (mkLoop 0 0 (set_tracking ∅ s) k).

Definition process_work (s : SRE_team) (k : nat) : SRE_team * nat :=
  let ls := (process_work_loop s k).1 in
  (team ls, rng ls).

(** *** The driver *)

(** One pass of the [while True] loop of [run], up to its [yield]. *)
Definition run_step (w : SRE_team * nat) : SRE_team * nat :=
  let s := set_ticks (ticks w.1 + 1) w.1 in
  if decide (length (work_items s) = 0%nat) then
    (set_work_items SRE_WORK_DISTRIBUTION s, w.2)
  else
    let (s1, k1) := assign_work (census s) w.2 in
    process_work s1 k1.

(** [n] passes of the loop. *)
Fixpoint run_ticks (n : nat) (w : SRE_team * nat) : SRE_team * nat :=
  match n with
  | O => w
  | S n' => run_ticks n' (run_step w)
  end.

(** How many of the next [n] passes take the [else] branch of [run]
    (census, assignment, processing) rather than refill the queue. *)
Fixpoint steady_ticks (n : nat) (w : SRE_team * nat) : nat :=
  match n with
  | O => O
  | S n' =>
      ((if decide (length (work_items w.1) = 0%nat) then 0 else 1)
       + steady_ticks n' (run_step w))%nat
  end.

(** [env.run(until=SIM_DURATION)] for a duration of at least 1: the
    generator is resumed at the times 0, 1, ..., SIM_DURATION - 1.  For a
    duration that is not positive simpy raises [ValueError] and runs
    nothing, see [env_run]. *)
Definition simulate : SRE_team * nat :=
  run_ticks (Z.to_nat (SIM_DURATION cfg)) (SRE_team_init cfg, 0%nat).

(** The script: the simulation, then one last [census] before plotting. *)
Definition script : SRE_team := census simulate.1.

End Simulation.

(** ** The growth step beyond the range of the doubles *)

(** Line 221 of [add_scaled_operational] with its failures: the conversion
    of the baseline to a [float] raises [OverflowError] when it is out of
    range, and so does [round] on the infinity that a product out of range
    gives; [None] stands for the exception.  Within range the value is
    [new_operational_work]. *)
Definition new_operational_work_checked (cfg : Config) (s : SRE_team)
    : option Z :=
  let x := Float64.of_int (operational_work s) in
  if Float64.finite x then
    let p := Float64.mul x (QUARTERLY_GROWTH cfg) in
    if Float64.finite p then Some (Float64.py_round p + onboardings s)
    else None
  else None.

(** [add_scaled_operational] with the [OverflowError] of its first line,
    which is raised before the cap is looked at. *)
Definition add_scaled_operational_checked (cfg : Config) (s : SRE_team)
    : option SRE_team :=
  match new_operational_work_checked cfg s with
  | None => None
  | Some new =>
      let delta := new - operational_work s in
      Some (if operational_work s <? SRE_TEAM_MAX_OPERATIONAL cfg then
              Nat.iter (Z.to_nat delta) (add_work OPERATIONAL) s
            else s)
  end.

(** [assign_work] up to its call of [add_scaled_operational]: the team on
    which a run takes the growth step. *)
Definition assign_before_growth (cfg : Config) (draws : nat -> Z)
    (s : SRE_team) (k : nat) : SRE_team :=
  let (r1, k1) := randint draws k in
  let s1 :=
    if 9 <? r1 then
      clear_first_of_type IN_TEAM_PROJECT
        (clear_first_of_type OPERATIONAL
           (clear_first_of_type OPERATIONAL
              (add_work CROSS_TEAM_PROJECT s)))
    else s in
  let (r2, k2) := randint draws k1 in
  if (8 <? r2) && negb (onboarding_in_progress s1)
     && (onboardings s1 <? SRE_TEAM_ONBOARDINGS_LIMIT cfg)
  then add_work ONBOARDING
         (set_onboardings (onboardings s1 + 1)
            (set_onboarding_in_progress true s1))
  else s1.

(** [env.run(until=SIM_DURATION)] as the script calls it at time 0: simpy
    raises [ValueError] for a duration that is not positive ([None]), and
    otherwise the run is [simulate]. *)
Definition env_run (cfg : Config) (draws : nat -> Z)
    : option (SRE_team * nat) :=
  if SIM_DURATION cfg <=? 0 then None else Some (simulate cfg draws).

(** ** [enum] *)

(** [d[k] = v] on a [dict], which keeps its keys in insertion order: the
    value of a key already there is replaced where it stands. *)
Fixpoint dict_set {V : Type} (k : string) (v : V) (d : list (string * V))
    : list (string * V) :=
  match d with
  | [] => [(k, v)]
  | (k', v') :: d' =>
      if decide (k' = k) then (k, v) :: d' else (k', v') :: dict_set k v d'
  end.

(** [d[k]]; [None] stands for the [KeyError] (the [AttributeError] on the
    class that [enum] builds). *)
Fixpoint dict_get {V : Type} (k : string) (d : list (string * V)) : option V :=
  match d with
  | [] => None
  | (k', v') :: d' => if decide (k' = k) then Some v' else dict_get k d'
  end.

(** [dict(items)] and [dict(items, **more)]: the items are set one after
    the other. *)
Definition dict_fill {V : Type} (d items : list (string * V))
    : list (string * V) :=
  foldl (fun d kv => dict_set kv.1 kv.2 d) d items.

(** [enums = dict(zip(sequential, range(len(sequential))), **named)], with
    names that are strings and values that are integers. *)
Definition enum_enums (sequential : list string) (named : list (string * Z))
    : list (string * Z) :=
  dict_fill
    (dict_fill [] (zip sequential (seqZ 0 (Z.of_nat (length sequential)))))
    named.

(** [reverse = dict((value, key) for key, value in enums.items())]. *)
Definition enum_reverse (enums : list (string * Z)) : gmap Z string :=
  foldl (fun m kv => <[kv.2 := kv.1]> m) ∅ enums.

(** What an attribute of the class holds: the value of a name, or the
    reverse dictionary. *)
Inductive enum_attribute : Type :=
| EnumValue (v : Z)
| ReverseMapping (m : gmap Z string).

(** [enum], called with positional names [sequential] and keyword names
    [named]: the namespace of the class returned by
    [type('Enum', (), enums)], after [enums['reverse_mapping'] = reverse]
    has put the reverse dictionary in it, over a name [reverse_mapping] if
    there was one. *)
Definition enum (sequential : list string) (named : list (string * Z))
    : list (string * enum_attribute) :=
  let enums := enum_enums sequential named in
  let reverse := enum_reverse enums in
  dict_set "reverse_mapping" (ReverseMapping reverse)
    ((fun kv => (kv.1, EnumValue kv.2)) <$> enums).


(** The attribute of [SRE_WORK_TYPES] that stands for a work type. *)
Definition work_type_name (w : WorkType) : string :=
  match w with
  | OPERATIONAL => "OPERATIONAL"
  | IN_TEAM_PROJECT => "IN_TEAM_PROJECT"
  | CROSS_TEAM_PROJECT => "CROSS_TEAM_PROJECT"
  | ONBOARDING => "ONBOARDING"
  end.

(** [SRE_WORK_TYPES = enum(OPERATIONAL=1, IN_TEAM_PROJECT=2,
    CROSS_TEAM_PROJECT=3, ONBOARDING=4)]. *)
Definition SRE_WORK_TYPES : list (string * enum_attribute) :=
  enum []
    [("OPERATIONAL", 1); ("IN_TEAM_PROJECT", 2); ("CROSS_TEAM_PROJECT", 3);
     ("ONBOARDING", 4)].

(** ** [sum_total_work] *)

(** [d[k]] on a [defaultdict(list)]: a missing key is first inserted with
    an empty list. *)
Definition dd_getitem (h : gmap WorkType (list Z)) (k : WorkType)
    : list Z * gmap WorkType (list Z) :=
  match h !! k with
  | Some l => (l, h)
  | None => ([], <[k := []]> h)
  end.

(** [l[x]]: a negative index counts from the end; [None] stands for the
    [IndexError] of an index out of range. *)
Definition list_getitem (l : list Z) (x : Z) : option Z :=
  let i := if x <? 0 then x + Z.of_nat (length l) else x in
  if i <? 0 then None else l !! Z.to_nat i.

(** The sum appended for one [x]: the four histories are read from left to
    right, and the first index out of range raises. *)
Definition sum_at (h : gmap WorkType (list Z)) (x : Z)
    : option Z * gmap WorkType (list Z) :=
  let (l1, h1) := dd_getitem h OPERATIONAL in
  match list_getitem l1 x with
  | None => (None, h1)
  | Some v1 =>
      let (l2, h2) := dd_getitem h1 IN_TEAM_PROJECT in
      match list_getitem l2 x with
      | None => (None, h2)
      | Some v2 =>
          let (l3, h3) := dd_getitem h2 CROSS_TEAM_PROJECT in
          match list_getitem l3 x with
          | None => (None, h3)
          | Some v3 =>
              let (l4, h4) := dd_getitem h3 ONBOARDING in
              match list_getitem l4 x with
              | None => (None, h4)
              | Some v4 => (Some (v1 + v2 + v3 + v4), h4)
              end
          end
      end
  end.

(** The [for] loop over [range(1, self.ticks)]. *)
Fixpoint sum_total_work_loop (xs : list Z) (h : gmap WorkType (list Z))
    (sums : list Z) : option (list Z) * gmap WorkType (list Z) :=
  match xs with
  | [] => (Some sums, h)
  | x :: xs' =>
      match sum_at h x with
      | (None, h') => (None, h')
      | (Some v, h') => sum_total_work_loop xs' h' (sums ++ [v])
      end
  end.

(** [sum_total_work]: the list of sums, or [None] for the [IndexError] that
    escapes, together with the team, whose history dictionary may have got
    keys. *)
Definition sum_total_work (s : SRE_team) : option (list Z) * SRE_team :=
  let r := sum_total_work_loop (seqZ 1 (ticks s - 1))
             (assigned_history_dict s) [] in
  (r.1, set_assigned_history_dict r.2 s).

(** The sum that [sum_total_work] wants at index [x], read off the series. *)
Definition series_sum_at (h : gmap WorkType (list Z)) (x : Z) : option Z :=
  match list_getitem (series h OPERATIONAL) x,
        list_getitem (series h IN_TEAM_PROJECT) x,
        list_getitem (series h CROSS_TEAM_PROJECT) x,
        list_getitem (series h ONBOARDING) x with
  | Some v1, Some v2, Some v3, Some v4 => Some (v1 + v2 + v3 + v4)
  | _, _, _, _ => None
  end.




(** ** Sample inputs *)

(** Every [randint] returns 1: no cross-team project, no onboarding, no
    carry-over. *)
Definition no_draws : nat -> Z := fun _ => 1.

(** The second draw is a 9: the first steady tick admits an onboarding. *)
Definition onboarding_draws : nat -> Z :=
  fun k => if (k =? 1)%nat then 9 else 1.

(** A fresh team given a queue. *)
Definition team_with_queue (q : list WorkType) : SRE_team :=
  set_work_items q (SRE_team_init default_config).

(** The team after the first pass of [run], which refills the queue. *)
Definition bootstrapped : SRE_team * nat :=
  run_ticks default_config no_draws 1 (SRE_team_init default_config, 0%nat).

(** The team of the first steady tick just before the growth step, an
    onboarding having been admitted. *)
Definition onboarding_admitted : SRE_team :=
  set_onboardings 1
    (set_onboarding_in_progress true
       (team_with_queue (SRE_WORK_DISTRIBUTION ++ [ONBOARDING]))).

(** A growth factor of 0.5 on a baseline of 10: the new level is below the
    baseline. *)
Definition shrinking_config : Config := {|
  SIM_DURATION := 100;
  QUARTERLY_GROWTH := Float64.lit_0_5;
  SRE_TEAM_CAPACITY := 10;
  SRE_TEAM_ONBOARDINGS_LIMIT := 10;
  SRE_BASELINE_OPERATIONAL := 10;
  SRE_TEAM_MAX_OPERATIONAL := 20
|}.

(** A baseline of [10^400], which no double holds. *)
Definition huge_config : Config := {|
  SIM_DURATION := 100;
  QUARTERLY_GROWTH := Float64.lit_1_15;
  SRE_TEAM_CAPACITY := 10;
  SRE_TEAM_ONBOARDINGS_LIMIT := 10;
  SRE_BASELINE_OPERATIONAL := 10 ^ 400;
  SRE_TEAM_MAX_OPERATIONAL := 20
|}.

(** Limits that are all non-positive. *)
Definition unchecked_config : Config := {|
  SIM_DURATION := 100;
  QUARTERLY_GROWTH := Float64.lit_1_15;
  SRE_TEAM_CAPACITY := 0;
  SRE_TEAM_ONBOARDINGS_LIMIT := 0;
  SRE_BASELINE_OPERATIONAL := 1;
  SRE_TEAM_MAX_OPERATIONAL := 0
|}.

(** ** Predicates on the team state *)

(** How many tokens of a work type are in the queue. *)
Definition queued (c : WorkType) (s : SRE_team) : nat :=
  count_occ WorkType_eq_dec (work_items s) c.

(** The guard against simultaneous onboardings is set exactly when an
    ONBOARDING token is waiting in the queue, and there is at most one. *)
Definition onboarding_guard_ok (s : SRE_team) : Prop :=
  queued ONBOARDING s = if onboarding_in_progress s then 1%nat else 0%nat.

(** Nothing is ever tallied, nor recorded as performed, under ONBOARDING. *)
Definition onboarding_untallied (s : SRE_team) : Prop :=
  tally (tracking s) ONBOARDING = 0
  /\ Forall (fun v => v = 0) (series (performed_history_dict s) ONBOARDING).

(** All eight series have the same length [n]. *)
Definition series_length (n : nat) (s : SRE_team) : Prop :=
  forall c : WorkType,
    length (series (assigned_history_dict s) c) = n
    /\ length (series (performed_history_dict s) c) = n.

(** * Properties *)

#[global] Arguments census : simpl never.
#[global] Arguments add_scaled_operational : simpl never.
#[global] Arguments assign_work : simpl never.
#[global] Arguments process_work : simpl never.
#[global] Arguments run_step : simpl never.

(** ** Dictionary reads after an update *)

Lemma tally_empty (k : WorkType) : tally ∅ k = 0.
Proof. reflexivity. Qed.

Lemma tally_incr_eq (k : WorkType) (t : gmap WorkType Z) :
  tally (incr k t) k = tally t k + 1.
Proof. unfold tally at 1, incr. by rewrite lookup_insert_eq. Qed.

Lemma tally_incr_ne (k k' : WorkType) (t : gmap WorkType Z) :
  k ≠ k' -> tally (incr k t) k' = tally t k'.
Proof. intros Hne. unfold tally, incr. by rewrite lookup_insert_ne. Qed.

Lemma series_append_eq (h : gmap WorkType (list Z)) (k : WorkType) (v : Z) :
  series (history_append h k v) k = series h k ++ [v].
Proof. unfold series at 1, history_append. by rewrite lookup_insert_eq. Qed.

Lemma series_append_ne (h : gmap WorkType (list Z)) (k k' : WorkType) (v : Z) :
  k ≠ k' -> series (history_append h k v) k' = series h k'.
Proof. intros Hne. unfold series, history_append. by rewrite lookup_insert_ne. Qed.

(** ** The census *)

Lemma remove_first_NoDup (x : WorkType) (l : list WorkType) :
  NoDup l -> x ∈ l ->
  exists l', remove_first x l = Some l' /\ NoDup l' /\
             forall z, z ∈ l' <-> z ∈ l /\ z ≠ x.
Proof.
  induction 1 as [|y l Hy Hl IH]; intros Hx.
  - by apply elem_of_nil in Hx.
  - simpl. destruct (decide (y = x)) as [->|Hne].
    + exists l. split; [done|]. split; [done|].
      intros z. rewrite elem_of_cons. split.
      * intros Hz. split; [by right|]. by intros ->.
      * by intros [[->|Hz] Hzx].
    + apply elem_of_cons in Hx as [->|Hx]; [done|].
      destruct (IH Hx) as (l' & -> & Hnd & Hl').
      exists (y :: l'). split; [done|]. split.
      * apply NoDup_cons. split; [|done]. rewrite Hl'. tauto.
      * intros z. rewrite !elem_of_cons, Hl'. split.
        -- intros [->|[? ?]]; auto.
        -- intros [[->|?] ?]; auto.
Qed.

(** First loop of [record_counts]: the histories. *)
Lemma record_entry_series_notin (items : list (WorkType * Z))
    (h : gmap WorkType (list Z)) (u : list WorkType) (c : WorkType) :
  c ∉ items.*1 ->
  series (foldl record_entry (h, u) items).1 c = series h c.
Proof.
  revert h u. induction items as [|[k x] items IH]; intros h u Hc; [done|].
  simpl in *. apply not_elem_of_cons in Hc as [Hne Hc].
  unfold record_entry at 2. simpl. rewrite IH by done.
  by apply series_append_ne.
Qed.

Lemma record_entry_series_in (items : list (WorkType * Z))
    (h : gmap WorkType (list Z)) (u : list WorkType) (c : WorkType) (v : Z) :
  NoDup items.*1 -> (c, v) ∈ items ->
  series (foldl record_entry (h, u) items).1 c = series h c ++ [v].
Proof.
  revert h u. induction items as [|[k x] items IH]; intros h u Hnd Hin.
  - by apply elem_of_nil in Hin.
  - simpl in *. apply NoDup_cons in Hnd as [Hk Hnd].
    unfold record_entry at 2. simpl.
    apply elem_of_cons in Hin as [[= <- <-]|Hin].
    + rewrite record_entry_series_notin by done. apply series_append_eq.
    + rewrite IH by done. f_equal. apply series_append_ne.
      intros ->. apply Hk. by apply (list_elem_of_fmap_2 fst _ (c, v)).
Qed.

(** First loop of [record_counts]: the work types left unused. *)
Lemma record_entry_unused (items : list (WorkType * Z))
    (h : gmap WorkType (list Z)) (u : list WorkType) :
  NoDup u ->
  NoDup (foldl record_entry (h, u) items).2 /\
  forall z, z ∈ (foldl record_entry (h, u) items).2 <-> z ∈ u /\ z ∉ items.*1.
Proof.
  revert h u. induction items as [|[k x] items IH]; intros h u Hu.
  - simpl. split; [done|]. intros z. split; [|tauto].
    intros Hz. split; [done|]. apply not_elem_of_nil.
  - simpl.
    assert (Hstep : exists u',
               record_entry (h, u) (k, x) = (history_append h k x, u')
               /\ NoDup u' /\ forall z, z ∈ u' <-> z ∈ u /\ z ≠ k).
    { unfold record_entry. simpl. destruct (decide (k ∈ u)) as [Hk|Hk].
      - destruct (remove_first_NoDup k u Hu Hk) as (u' & -> & Hu' & Hmem).
        by exists u'.
      - exists u. split; [done|]. split; [done|]. intros z.
        split; [|tauto]. intros Hz. split; [done|]. by intros ->. }
    destruct Hstep as (u' & -> & Hu' & Hmem).
    destruct (IH (history_append h k x) u' Hu') as [Hnd Hz].
    split; [done|]. intros z. rewrite Hz, Hmem, not_elem_of_cons. tauto.
Qed.

(** Second loop of [record_counts]: the zeros. *)
Lemma zero_fill_notin (u : list WorkType) (h : gmap WorkType (list Z))
    (c : WorkType) :
  c ∉ u ->
  series (foldl (fun h work_type => history_append h work_type 0) h u) c
  = series h c.
Proof.
  revert h. induction u as [|k u IH]; intros h Hc; [done|].
  apply not_elem_of_cons in Hc as [Hne Hc]. simpl.
  rewrite IH by done. by apply series_append_ne.
Qed.

Lemma zero_fill_in (u : list WorkType) (h : gmap WorkType (list Z))
    (c : WorkType) :
  NoDup u -> c ∈ u ->
  series (foldl (fun h work_type => history_append h work_type 0) h u) c
  = series h c ++ [0].
Proof.
  revert h. induction u as [|k u IH]; intros h Hnd Hc.
  - by apply elem_of_nil in Hc.
  - apply NoDup_cons in Hnd as [Hk Hnd]. simpl.
    apply elem_of_cons in Hc as [->|Hc].
    + rewrite zero_fill_notin by done. apply series_append_eq.
    + rewrite IH by done. f_equal. apply series_append_ne. by intros ->.
Qed.

Lemma all_work_types_NoDup : NoDup all_work_types.
Proof.
  unfold all_work_types.
  repeat (apply NoDup_cons; split;
          [rewrite ?elem_of_cons, elem_of_nil; intuition discriminate|]).
  apply NoDup_nil_2.
Qed.

Lemma elem_of_all_work_types (c : WorkType) : c ∈ all_work_types.
Proof.
  unfold all_work_types. rewrite !elem_of_cons. destruct c; tauto.
Qed.

(** Sorting the items by count keeps the items. *)
Lemma insert_by_count_perm (x : WorkType * Z) (l : list (WorkType * Z)) :
  insert_by_count x l ≡ₚ x :: l.
Proof.
  induction l as [|y l IH]; simpl; [done|].
  destruct (x.2 <? y.2); [|done].
  rewrite IH. apply Permutation_swap.
Qed.

Lemma most_common_perm (m : gmap WorkType Z) :
  most_common m ≡ₚ map_to_list m.
Proof.
  unfold most_common. induction (map_to_list m) as [|x l IH]; simpl; [done|].
  by rewrite insert_by_count_perm, IH.
Qed.

(** What [census] appends for one dictionary of counts: its entry for the
    work type, 0 when the work type has none. *)
Lemma record_counts_series (m : gmap WorkType Z) (h : gmap WorkType (list Z))
    (c : WorkType) :
  series (record_counts (most_common m) h) c = series h c ++ [tally m c].
Proof.
  unfold record_counts.
  assert (Hnd : NoDup (most_common m).*1).
  { rewrite most_common_perm. apply NoDup_fst_map_to_list. }
  destruct (record_entry_unused (most_common m) h all_work_types
              all_work_types_NoDup) as [Hu Hmem].
  unfold tally. destruct (m !! c) as [v|] eqn:Hm; simpl.
  - assert (Hin : (c, v) ∈ most_common m).
    { rewrite most_common_perm. by apply elem_of_map_to_list. }
    rewrite zero_fill_notin.
    + by apply record_entry_series_in.
    + rewrite Hmem. intros [_ Hc]. apply Hc.
      by apply (list_elem_of_fmap_2 fst _ (c, v)).
  - assert (Hnotin : c ∉ (most_common m).*1).
    { rewrite most_common_perm. intros Hc.
      apply list_elem_of_fmap in Hc as ([k v] & -> & Hkv).
      apply elem_of_map_to_list in Hkv. simpl in Hm. congruence. }
    rewrite zero_fill_in.
    + by rewrite record_entry_series_notin.
    + done.
    + rewrite Hmem. split; [apply elem_of_all_work_types|done].
Qed.

(** [Counter] counts the occurrences. *)
Lemma tally_Counter_acc (q : list WorkType) (acc : gmap WorkType Z)
    (c : WorkType) :
  tally (foldl (fun c x => incr x c) acc q) c
  = tally acc c + Z.of_nat (count_occ WorkType_eq_dec q c).
Proof.
  revert acc. induction q as [|x q IH]; intros acc; simpl; [lia|].
  rewrite IH. destruct (WorkType_eq_dec x c) as [->|Hne].
  - rewrite tally_incr_eq. lia.
  - rewrite tally_incr_ne by done. lia.
Qed.

Lemma tally_Counter (q : list WorkType) (c : WorkType) :
  tally (Counter q) c = Z.of_nat (count_occ WorkType_eq_dec q c).
Proof. unfold Counter. rewrite tally_Counter_acc, tally_empty. lia. Qed.

(** [census] appends to every series: the number of queued tokens of the
    work type, and the tally that [tracking] holds for it. *)
Lemma census_assigned (s : SRE_team) (c : WorkType) :
  series (assigned_history_dict (census s)) c
  = series (assigned_history_dict s) c
    ++ [Z.of_nat (count_occ WorkType_eq_dec (work_items s) c)].
Proof. unfold census. simpl. by rewrite record_counts_series, tally_Counter. Qed.

Lemma census_performed (s : SRE_team) (c : WorkType) :
  series (performed_history_dict (census s)) c
  = series (performed_history_dict s) c ++ [tally (tracking s) c].
Proof. unfold census. simpl. by rewrite record_counts_series. Qed.

(** ** The processing loop *)

(** Case analysis on one pass of the loop, from [Hb : loop_body .. = Some _]. *)
Ltac body_cases Hb :=
  unfold loop_body in Hb; simpl in Hb;
  match type of Hb with
  | context [popleft ?q] => destruct q as [|[] ?] eqn:?
  end;
  simpl in Hb; [discriminate|..];
  repeat match type of Hb with
         | context [if ?b then _ else _] => destruct b eqn:?
         end;
  inversion Hb; subst; clear Hb; simpl in *.

Section LoopFacts.

Variable cfg : Config.
Variable draws : nat -> Z.

Abbreviation CAP := (SRE_TEAM_CAPACITY cfg).
Abbreviation body := (loop_body cfg draws).
Abbreviation loop := (process_loop cfg draws).

Lemma process_loop_eq (ls : loop_state) :
  loop ls =
  if capacity ls <? CAP then
    match body ls with
    | None => (ls, QueueEmpty)
    | Some ls' => loop ls'
    end
  else (ls, CapacityReached).
Proof.
  funelim (process_loop cfg draws ls);
    repeat match goal with
           | H : (capacity _ <? _) = _ |- _ => rewrite H
           | H : loop_body _ _ _ = _ |- _ => rewrite H
           end; reflexivity.
Qed.

Lemma loop_body_None (ls : loop_state) :
  body ls = None <-> work_items (team ls) = [].
Proof.
  unfold loop_body. destruct (work_items (team ls)) as [|w q]; simpl.
  - tauto.
  - split; discriminate.
Qed.

Lemma loop_body_decreases (ls ls' : loop_state) :
  capacity ls < CAP ->
  body ls = Some ls' ->
  (loop_measure cfg ls' < loop_measure cfg ls)%nat.
Proof.
  intros Hc Hb. unfold loop_measure. destruct ls as [c o t k]; simpl in *.
  body_cases Hb; rewrite ?length_app; simpl; lia.
Qed.

(** Invariants of the loop: what holds on entry and is kept by every pass
    holds on exit. *)
Lemma process_loop_invariant (P : loop_state -> Prop) :
  (forall ls ls', capacity ls < CAP -> body ls = Some ls' -> P ls -> P ls') ->
  forall ls, P ls -> P (loop ls).1.
Proof.
  intros Hstep ls.
  remember (loop_measure cfg ls) as m eqn:Hm. revert ls Hm.
  induction m as [m IH] using lt_wf_ind. intros ls -> HP.
  rewrite process_loop_eq.
  destruct (capacity ls <? CAP) eqn:Hc; [|exact HP].
  apply Z.ltb_lt in Hc.
  destruct (body ls) as [ls'|] eqn:Hb; [|exact HP].
  eapply IH; [|reflexivity|eauto].
  by apply loop_body_decreases.
Qed.

Lemma process_loop_run (ls : loop_state) :
  exists n, (n <= loop_measure cfg ls)%nat /\
            loop_run cfg draws n ls (loop ls).1 (loop ls).2.
Proof.
  remember (loop_measure cfg ls) as m eqn:Hm. revert ls Hm.
  induction m as [m IH] using lt_wf_ind. intros ls ->.
  rewrite process_loop_eq.
  destruct (capacity ls <? CAP) eqn:Hc.
  - apply Z.ltb_lt in Hc.
    destruct (body ls) as [ls'|] eqn:Hb.
    + pose proof (loop_body_decreases _ _ Hc Hb) as Hlt.
      destruct (IH _ Hlt ls' eq_refl) as (n & Hn & Hrun).
      exists (S n). split; [lia|]. by eapply loop_run_pass.
    + exists 0%nat. split; [lia|]. simpl.
      apply loop_run_empty; [done|]. by apply loop_body_None.
  - apply Z.ltb_ge in Hc. exists 0%nat. split; [lia|].
    by apply loop_run_capacity.
Qed.

Lemma loop_run_exit (n : nat) (ls final : loop_state) (ex : loop_exit) :
  loop_run cfg draws n ls final ex ->
  match ex with
  | CapacityReached => CAP <= capacity final
  | QueueEmpty => capacity final < CAP /\ work_items (team final) = []
  end.
Proof. induction 1; auto. Qed.

(** The float comparison of the source is a comparison of integers for
    every capacity a double holds exactly. *)
Lemma below_op_threshold_spec (n : Z) :
  Z.abs CAP < 2 ^ 53 ->
  below_op_threshold cfg n = (2 * n <? CAP).
Proof.
  intros Hcap. unfold below_op_threshold, Float64.of_int, Float64.mul.
  assert (Hbl : (Float64.bit_length CAP <=? 53) = true).
  { unfold Float64.bit_length. destruct (CAP =? 0) eqn:E; [reflexivity|].
    apply Z.eqb_neq in E. apply Z.leb_le.
    assert (Z.log2 (Z.abs CAP) < 53); [|lia].
    apply Z.log2_lt_pow2; lia. }
  unfold Float64.round53 at 2. rewrite Hbl. simpl Float64.mant.
  simpl Float64.expo. replace (1 * CAP) with CAP by lia.
  unfold Float64.round53. rewrite Hbl. unfold Float64.int_ltb. simpl.
  rewrite Z.shiftl_mul_pow2 by lia. f_equal. lia.
Qed.

(** The operational sub-counter and the tally of OPERATIONAL agree, and
    stay within half the capacity. *)
Lemma operational_tally_invariant (ls : loop_state) :
  0 <= CAP < 2 ^ 53 ->
  Z.even CAP = true ->
  tally (tracking (team ls)) OPERATIONAL = op_counter ls ->
  2 * op_counter ls <= CAP ->
  tally (tracking (team (loop ls).1)) OPERATIONAL = op_counter (loop ls).1
  /\ 2 * op_counter (loop ls).1 <= CAP.
Proof.
  intros Hcap Heven H1 H2.
  apply (process_loop_invariant
           (fun ls => tally (tracking (team ls)) OPERATIONAL = op_counter ls
                      /\ 2 * op_counter ls <= CAP)); [|auto].
  clear ls H1 H2. intros ls ls' _ Hb [H1 H2].
  apply Z.even_spec in Heven as [m Hm].
  destruct ls as [c o t k]; simpl in *.
  body_cases Hb; rewrite ?tally_incr_eq, ?tally_incr_ne by done;
    try (split; [lia|lia]).
  rewrite below_op_threshold_spec in * by lia.
  split; lia.
Qed.

(** The tallies never add up to more than the capacity used, and a pass
    starts only below the limit. *)
Lemma total_tally_invariant (ls : loop_state) :
  0 <= CAP ->
  total_tally (tracking (team ls)) <= capacity ls ->
  total_tally (tracking (team ls)) <= CAP ->
  capacity ls <= CAP + 1 ->
  total_tally (tracking (team (loop ls).1)) <= CAP
  /\ capacity (loop ls).1 <= CAP + 1.
Proof.
  intros Hcap H1 H2 H3.
  cut (total_tally (tracking (team (loop ls).1)) <= capacity (loop ls).1
       /\ total_tally (tracking (team (loop ls).1)) <= CAP
       /\ capacity (loop ls).1 <= CAP + 1); [tauto|].
  apply (process_loop_invariant
           (fun ls => total_tally (tracking (team ls)) <= capacity ls
                      /\ total_tally (tracking (team ls)) <= CAP
                      /\ capacity ls <= CAP + 1)); [|auto].
  clear ls H1 H2 H3. intros ls ls' Hc Hb (H1 & H2 & H3).
  destruct ls as [c o t k]; simpl in *. unfold total_tally in *.
  body_cases Hb; rewrite ?tally_incr_eq, ?tally_incr_ne by done; lia.
Qed.

End LoopFacts.

(** ** Admission *)

Lemma iter_add_work (w : WorkType) (n : nat) (s : SRE_team) :
  Nat.iter n (add_work w) s = set_work_items (work_items s ++ repeat w n) s.
Proof.
  induction n as [|n IH]; simpl.
  - destruct s; unfold set_work_items; simpl. by rewrite app_nil_r.
  - rewrite IH. unfold add_work, set_work_items. simpl.
    by rewrite <- app_assoc, <- repeat_cons.
Qed.

Lemma remove_first_count (x c : WorkType) (q q' : list WorkType) :
  remove_first x q = Some q' -> x ≠ c ->
  count_occ WorkType_eq_dec q' c = count_occ WorkType_eq_dec q c.
Proof.
  revert q'. induction q as [|y q IH]; intros q' Hr Hne; simpl in *.
  - discriminate.
  - destruct (decide (y = x)) as [->|Hy].
    + inversion Hr; subst. by destruct (WorkType_eq_dec x c).
    + destruct (remove_first x q) as [r|]; [|discriminate].
      inversion Hr; subst. simpl.
      destruct (WorkType_eq_dec y c); rewrite (IH r); auto.
Qed.

Lemma count_occ_repeat_ne (x c : WorkType) (n : nat) :
  x ≠ c -> count_occ WorkType_eq_dec (repeat x n) c = 0%nat.
Proof.
  intros Hne. induction n as [|n IH]; simpl; [done|].
  by destruct (WorkType_eq_dec x c).
Qed.

Section RunFacts.

Variable cfg : Config.
Variable draws : nat -> Z.

(** *** Fields a step leaves alone *)

Lemma clear_first_of_type_frame {A : Type} (f : SRE_team -> A) :
  (forall q s, f (set_work_items q s) = f s) ->
  forall x s, f (clear_first_of_type x s) = f s.
Proof.
  intros Hq x s. unfold clear_first_of_type.
  by destruct (remove_first x (work_items s)).
Qed.

Lemma add_scaled_operational_frame {A : Type} (f : SRE_team -> A) :
  (forall q s, f (set_work_items q s) = f s) ->
  forall s, f (add_scaled_operational cfg s) = f s.
Proof.
  intros Hq s. unfold add_scaled_operational.
  destruct (operational_work s <? SRE_TEAM_MAX_OPERATIONAL cfg); [|done].
  by rewrite iter_add_work.
Qed.

Lemma assign_work_frame {A : Type} (f : SRE_team -> A) :
  (forall q s, f (set_work_items q s) = f s) ->
  (forall b s, f (set_onboarding_in_progress b s) = f s) ->
  (forall n s, f (set_onboardings n s) = f s) ->
  forall s k, f (assign_work cfg draws s k).1 = f s.
Proof.
  intros Hq Hb Hn s k. unfold assign_work, randint. simpl.
  rewrite add_scaled_operational_frame by done.
  repeat match goal with
         | |- context [if ?b then _ else _] => destruct b
         end;
    unfold add_work;
    rewrite ?Hq, ?Hn, ?Hb, ?clear_first_of_type_frame, ?Hq by done; done.
Qed.

Lemma process_loop_frame {A : Type} (f : SRE_team -> A) :
  (forall q s, f (set_work_items q s) = f s) ->
  (forall b s, f (set_onboarding_in_progress b s) = f s) ->
  (forall t s, f (set_tracking t s) = f s) ->
  forall ls, f (team (process_loop cfg draws ls).1) = f (team ls).
Proof.
  intros Hq Hb Ht ls.
  apply (process_loop_invariant cfg draws
           (fun ls' => f (team ls') = f (team ls))); [|done].
  intros l l' _ Hbody <-.
  destruct l as [c o t k]; simpl in *.
  body_cases Hbody; unfold track, add_work;
    rewrite ?Ht, ?Hb, ?Hq; done.
Qed.

Lemma process_work_frame {A : Type} (f : SRE_team -> A) :
  (forall q s, f (set_work_items q s) = f s) ->
  (forall b s, f (set_onboarding_in_progress b s) = f s) ->
  (forall t s, f (set_tracking t s) = f s) ->
  forall s k, f (process_work cfg draws s k).1 = f s.
Proof.
  intros Hq Hb Ht s k. unfold process_work, process_work_loop. simpl.
  rewrite process_loop_frame by done. simpl. apply Ht.
Qed.

(** *** The two kinds of pass of [run] *)

Lemma run_step_bootstrap (w : SRE_team * nat) :
  work_items w.1 = [] ->
  run_step cfg draws w
  = (set_work_items SRE_WORK_DISTRIBUTION (set_ticks (ticks w.1 + 1) w.1),
     w.2).
Proof.
  intros Hq. unfold run_step. simpl. rewrite Hq. simpl.
  by destruct (decide (0%nat = 0%nat)).
Qed.

Lemma run_step_steady (w : SRE_team * nat) :
  work_items w.1 ≠ [] ->
  run_step cfg draws w
  = let a := assign_work cfg draws
               (census (set_ticks (ticks w.1 + 1) w.1)) w.2 in
    process_work cfg draws a.1 a.2.
Proof.
  intros Hq. unfold run_step.
  destruct (decide _) as [Hl|Hl]; simpl in Hl.
  - destruct (work_items w.1); [done|discriminate].
  - cbv zeta.
    match goal with
    | |- context [assign_work ?a ?b ?c ?d] => by destruct (assign_work a b c d)
    end.
Qed.

Lemma run_ticks_invariant (P : SRE_team -> Prop) :
  (forall w, P w.1 -> P (run_step cfg draws w).1) ->
  forall n w, P w.1 -> P (run_ticks cfg draws n w).1.
Proof.
  intros Hstep n. induction n as [|n IH]; intros w Hw; simpl; auto.
Qed.

Lemma run_ticks_S (n : nat) (w : SRE_team * nat) :
  run_ticks cfg draws (S n) w = run_step cfg draws (run_ticks cfg draws n w).
Proof.
  revert w. induction n as [|n IH]; intros w; [done|].
  change (run_ticks cfg draws (S (S n)) w)
    with (run_ticks cfg draws (S n) (run_step cfg draws w)).
  by rewrite IH.
Qed.

(** *** The onboarding guard *)

Lemma add_work_guard (x : WorkType) (s : SRE_team) :
  x ≠ ONBOARDING -> onboarding_guard_ok s -> onboarding_guard_ok (add_work x s).
Proof.
  unfold onboarding_guard_ok, queued, add_work. simpl. intros Hx Hs.
  rewrite count_occ_app, Hs. simpl.
  destruct (WorkType_eq_dec x ONBOARDING); [done|lia].
Qed.

Lemma clear_first_of_type_guard (x : WorkType) (s : SRE_team) :
  x ≠ ONBOARDING -> onboarding_guard_ok s ->
  onboarding_guard_ok (clear_first_of_type x s).
Proof.
  unfold onboarding_guard_ok, queued, clear_first_of_type. intros Hx Hs.
  destruct (remove_first x (work_items s)) as [q|] eqn:Hr; [|done].
  simpl. by rewrite (remove_first_count x ONBOARDING _ _ Hr Hx).
Qed.

Lemma add_scaled_operational_guard (s : SRE_team) :
  onboarding_guard_ok s -> onboarding_guard_ok (add_scaled_operational cfg s).
Proof.
  unfold onboarding_guard_ok, queued, add_scaled_operational. intros Hs.
  destruct (operational_work s <? SRE_TEAM_MAX_OPERATIONAL cfg); [|done].
  rewrite iter_add_work. simpl.
  rewrite count_occ_app, count_occ_repeat_ne by done. lia.
Qed.

Lemma assign_work_guard (s : SRE_team) (k : nat) :
  onboarding_guard_ok s -> onboarding_guard_ok (assign_work cfg draws s k).1.
Proof.
  intros Hs. unfold assign_work, randint. simpl.
  apply add_scaled_operational_guard.
  set (s1 := if 9 <? draws k then _ else s).
  assert (Hs1 : onboarding_guard_ok s1).
  { subst s1. destruct (9 <? draws k); [|done].
    repeat apply clear_first_of_type_guard; try done.
    by apply add_work_guard. }
  destruct (8 <? draws (S k)); simpl; [|done].
  destruct (onboarding_in_progress s1) eqn:Hflag; simpl; [done|].
  destruct (onboardings s1 <? SRE_TEAM_ONBOARDINGS_LIMIT cfg); [|done].
  unfold onboarding_guard_ok, queued in *. simpl. rewrite Hflag in Hs1.
  rewrite count_occ_app, Hs1. reflexivity.
Qed.

Lemma loop_body_guard (ls ls' : loop_state) :
  loop_body cfg draws ls = Some ls' ->
  onboarding_guard_ok (team ls) -> onboarding_guard_ok (team ls').
Proof.
  unfold onboarding_guard_ok, queued. intros Hb Hs.
  destruct ls as [c o t k]; simpl in *.
  body_cases Hb; rewrite ?count_occ_app; simpl;
    destruct (onboarding_in_progress t); lia.
Qed.

Lemma process_work_guard (s : SRE_team) (k : nat) :
  onboarding_guard_ok s -> onboarding_guard_ok (process_work cfg draws s k).1.
Proof.
  intros Hs. unfold process_work, process_work_loop. simpl.
  apply (process_loop_invariant cfg draws
           (fun ls => onboarding_guard_ok (team ls))); [|done].
  intros ls ls' _ Hb. by apply loop_body_guard.
Qed.

Lemma run_step_guard (w : SRE_team * nat) :
  onboarding_guard_ok w.1 -> onboarding_guard_ok (run_step cfg draws w).1.
Proof.
  intros Hw. destruct (work_items w.1) as [|x q] eqn:Hq.
  - rewrite run_step_bootstrap by done.
    unfold onboarding_guard_ok, queued in *. simpl. rewrite Hq in Hw.
    simpl in Hw. by destruct (onboarding_in_progress w.1).
  - rewrite run_step_steady by (by rewrite Hq).
    cbv zeta. apply process_work_guard, assign_work_guard. exact Hw.
Qed.

(** *** Nothing is tallied under ONBOARDING *)

Lemma process_work_untallied (s : SRE_team) (k : nat) :
  tally (tracking (process_work cfg draws s k).1) ONBOARDING = 0.
Proof.
  unfold process_work, process_work_loop. simpl.
  apply (process_loop_invariant cfg draws
           (fun ls => tally (tracking (team ls)) ONBOARDING = 0)); [|done].
  intros ls ls' _ Hb Hs. destruct ls as [c o t k']; simpl in *.
  body_cases Hb; rewrite ?tally_incr_ne by done; done.
Qed.

Lemma run_step_untallied (w : SRE_team * nat) :
  onboarding_untallied w.1 -> onboarding_untallied (run_step cfg draws w).1.
Proof.
  intros [Ht Hp]. destruct (work_items w.1) as [|x q] eqn:Hq.
  - rewrite run_step_bootstrap by done. by split.
  - rewrite run_step_steady by (by rewrite Hq). cbv zeta. split.
    + apply process_work_untallied.
    + rewrite (process_work_frame performed_history_dict) by done.
      rewrite (assign_work_frame performed_history_dict) by done.
      rewrite census_performed. apply Forall_app. split; [done|].
      apply Forall_singleton. exact Ht.
Qed.

(** *** One entry per series and per steady pass *)

Lemma run_step_assigned (w : SRE_team * nat) (c : WorkType) :
  work_items w.1 ≠ [] ->
  series (assigned_history_dict (run_step cfg draws w).1) c
  = series (assigned_history_dict w.1) c ++ [Z.of_nat (queued c w.1)].
Proof.
  intros Hq. rewrite run_step_steady by done. cbv zeta.
  rewrite (process_work_frame assigned_history_dict) by done.
  rewrite (assign_work_frame assigned_history_dict) by done.
  by rewrite census_assigned.
Qed.

Lemma run_step_performed (w : SRE_team * nat) (c : WorkType) :
  work_items w.1 ≠ [] ->
  series (performed_history_dict (run_step cfg draws w).1) c
  = series (performed_history_dict w.1) c ++ [tally (tracking w.1) c].
Proof.
  intros Hq. rewrite run_step_steady by done. cbv zeta.
  rewrite (process_work_frame performed_history_dict) by done.
  rewrite (assign_work_frame performed_history_dict) by done.
  by rewrite census_performed.
Qed.

Lemma run_ticks_series_length (n : nat) :
  forall (w : SRE_team * nat) (m : nat),
    series_length m w.1 ->
    series_length (m + steady_ticks cfg draws n w) (run_ticks cfg draws n w).1.
Proof.
  induction n as [|n IH]; intros w m Hm; simpl.
  - by rewrite Nat.add_0_r.
  - destruct (decide (length (work_items w.1) = 0%nat)) as [Hl|Hl].
    + simpl. apply IH. rewrite run_step_bootstrap
        by (by destruct (work_items w.1)). exact Hm.
    + replace (m + (1 + steady_ticks cfg draws n (run_step cfg draws w)))%nat
        with (S m + steady_ticks cfg draws n (run_step cfg draws w))%nat by lia.
      apply IH. intros c.
      assert (Hq : work_items w.1 ≠ []) by (by destruct (work_items w.1)).
      rewrite run_step_assigned, run_step_performed by done.
      rewrite !length_app. simpl. destruct (Hm c) as [-> ->]. lia.
Qed.

(** *** The counters *)

Lemma run_step_operational_work (w : SRE_team * nat) :
  operational_work (run_step cfg draws w).1 = operational_work w.1.
Proof.
  destruct (work_items w.1) as [|x q] eqn:Hq.
  - by rewrite run_step_bootstrap.
  - rewrite run_step_steady by (by rewrite Hq). cbv zeta.
    rewrite (process_work_frame operational_work) by done.
    by rewrite (assign_work_frame operational_work).
Qed.

Lemma run_step_ticks (w : SRE_team * nat) :
  ticks (run_step cfg draws w).1 = ticks w.1 + 1.
Proof.
  destruct (work_items w.1) as [|x q] eqn:Hq.
  - by rewrite run_step_bootstrap.
  - rewrite run_step_steady by (by rewrite Hq). cbv zeta.
    rewrite (process_work_frame ticks) by done.
    by rewrite (assign_work_frame ticks).
Qed.

End RunFacts.

(** *** The last census of the script *)

(** The tally of the last tick is recorded by the census that the script
    takes after the simulation. *)
Lemma script_records_last_tally (cfg : Config) (draws : nat -> Z)
    (c : WorkType) :
  series (performed_history_dict (script cfg draws)) c
  = series (performed_history_dict (simulate cfg draws).1) c
    ++ [tally (tracking (simulate cfg draws).1) c].
Proof. apply census_performed. Qed.

(** *** The growth of the program *)

(** With the growth factor 1.15 the new level is never below a baseline
    that is under the cap of 20, so [delta] is not negative. *)
Lemma default_growth_delta_nonneg (s : SRE_team) :
  0 <= operational_work s < SRE_TEAM_MAX_OPERATIONAL default_config ->
  0 <= onboardings s ->
  0 <= new_operational_work default_config s - operational_work s.
Proof.
  unfold new_operational_work. simpl. intros Hb Hn.
  assert (Hr : operational_work s
               <= Float64.py_round
                    (Float64.mul (Float64.of_int (operational_work s))
                       Float64.lit_1_15)); [|lia].
  assert (Hcases : exists i : nat,
             (i < 20)%nat /\ operational_work s = Z.of_nat i).
  { exists (Z.to_nat (operational_work s)). lia. }
  destruct Hcases as (i & Hi & ->).
  do 20 (destruct i as [|i]; [vm_compute; discriminate|]). lia.
Qed.

(** *** The run of the script *)

(** [env.run] is [simulate] for every duration that simpy accepts, and
    raises for the others. *)
Lemma env_run_simulate (cfg : Config) (draws : nat -> Z) :
  (0 < SIM_DURATION cfg -> env_run cfg draws = Some (simulate cfg draws))
  /\ (SIM_DURATION cfg <= 0 -> env_run cfg draws = None).
Proof.
  unfold env_run. split; intros H.
  - by destruct (Z.leb_spec (SIM_DURATION cfg) 0); [lia|].
  - by destruct (Z.leb_spec (SIM_DURATION cfg) 0); [|lia].
Qed.

(** * The claims *)

(** C1.  The growth step computes the new operational level but never
    stores it: [add_scaled_operational] leaves [operational_work] as it
    was, so the field keeps the baseline constant through every run.  On
    the team of the first steady tick with one onboarding admitted, the new
    level is 2 and the field still reads 1 after the step. *)
Theorem operational_work_never_updated :
  (forall cfg s, operational_work (add_scaled_operational cfg s) = operational_work s)
  /\ (forall cfg draws n,
        operational_work (run_ticks cfg draws n (SRE_team_init cfg, 0%nat)).1
        = SRE_BASELINE_OPERATIONAL cfg)
  /\ new_operational_work default_config onboarding_admitted = 2
  /\ operational_work
       (add_scaled_operational default_config onboarding_admitted) = 1
  /\ operational_work
       (run_ticks default_config onboarding_draws 2
          (SRE_team_init default_config, 0%nat)).1 = 1.
Proof.
  split; [|split; [|by vm_compute]].
  - intros cfg s. by apply (add_scaled_operational_frame cfg operational_work).
  - intros cfg draws n.
    apply (run_ticks_invariant cfg draws
             (fun s => operational_work s = SRE_BASELINE_OPERATIONAL cfg));
      [|done].
    intros w Hw. by rewrite run_step_operational_work.
Qed.

(** C2, as the program has it.  In a steady tick the census runs before
    assignment and processing: the entry appended to the performed series
    of a work type is the tally that [tracking] held when the tick began,
    left there by the latest earlier processing (nothing, hence 0, before
    the first one).  The tally of the tick itself is what [tracking] holds
    when the tick ends, for a later census to record. *)
Theorem performed_entry_is_earlier_tally (cfg : Config) (draws : nat -> Z)
    (w : SRE_team * nat) (c : WorkType) :
  work_items w.1 ≠ [] ->
  let a :=
    assign_work cfg draws (census (set_ticks (ticks w.1 + 1) w.1)) w.2 in
  series (performed_history_dict (run_step cfg draws w).1) c
  = series (performed_history_dict w.1) c ++ [tally (tracking w.1) c]
  /\ tracking (run_step cfg draws w).1
     = tracking (process_work cfg draws a.1 a.2).1.
Proof.
  intros Hq. cbv zeta. split.
  - rewrite run_step_steady by done. cbv zeta.
    rewrite (process_work_frame cfg draws performed_history_dict) by done.
    rewrite (assign_work_frame cfg draws performed_history_dict) by done.
    rewrite census_performed. reflexivity.
  - by rewrite run_step_steady.
Qed.

Lemma performed_entry_is_earlier_tally_witness :
  work_items bootstrapped.1 ≠ []
  /\ series (performed_history_dict
               (run_step default_config no_draws bootstrapped).1) OPERATIONAL
     = series (performed_history_dict bootstrapped.1) OPERATIONAL
       ++ [tally (tracking bootstrapped.1) OPERATIONAL].
Proof.
  assert (H : work_items bootstrapped.1 ≠ []) by (vm_compute; discriminate).
  split; [exact H|].
  exact (proj1 (performed_entry_is_earlier_tally default_config no_draws
                  bootstrapped OPERATIONAL H)).
Defined.

(** C2 as stated fails on the first steady tick: the entry appended for
    OPERATIONAL is 0 while the processing of that tick tallies 4. *)
Lemma first_steady_tick_records_zero :
  let w := run_step default_config no_draws bootstrapped in
  work_items bootstrapped.1 ≠ []
  /\ series (performed_history_dict bootstrapped.1) OPERATIONAL = []
  /\ series (performed_history_dict w.1) OPERATIONAL = [0]
  /\ tally (tracking w.1) OPERATIONAL = 4.
Proof. vm_compute. repeat split; discriminate || reflexivity. Qed.

(** C3.  Whatever is queued and whatever is drawn, a tick tallies at most
    half the capacity as OPERATIONAL work (the capacity being even, as the
    10 of the program is). *)
Theorem operational_tally_capped (cfg : Config) (draws : nat -> Z)
    (s : SRE_team) (k : nat) :
  0 <= SRE_TEAM_CAPACITY cfg < 2 ^ 53 ->
  Z.even (SRE_TEAM_CAPACITY cfg) = true ->
  2 * tally (tracking (process_work cfg draws s k).1) OPERATIONAL
  <= SRE_TEAM_CAPACITY cfg.
Proof.
  intros Hcap Heven. unfold process_work, process_work_loop. simpl.
  destruct (operational_tally_invariant cfg draws
              (mkLoop 0 0 (set_tracking ∅ s) k) Hcap Heven) as [H1 H2].
  - reflexivity.
  - simpl. lia.
  - rewrite H1. exact H2.
Qed.

Lemma operational_tally_capped_witness :
  2 * tally (tracking
               (process_work default_config no_draws
                  (team_with_queue (repeat OPERATIONAL 8)) 0).1) OPERATIONAL
  <= 10.
Proof.
  apply (operational_tally_capped default_config no_draws
           (team_with_queue (repeat OPERATIONAL 8)) 0).
  - simpl. lia.
  - reflexivity.
Defined.

(** C4.  Between the ticks of a run the queue holds at most one ONBOARDING
    token, and the guard is set exactly when it holds one. *)
Theorem onboarding_guard_invariant (cfg : Config) (draws : nat -> Z) (n : nat) :
  let s := (run_ticks cfg draws n (SRE_team_init cfg, 0%nat)).1 in
  (queued ONBOARDING s <= 1)%nat
  /\ (onboarding_in_progress s = true <-> queued ONBOARDING s = 1%nat).
Proof.
  cbv zeta.
  assert (H : onboarding_guard_ok
                (run_ticks cfg draws n (SRE_team_init cfg, 0%nat)).1).
  { apply run_ticks_invariant; [apply run_step_guard|reflexivity]. }
  unfold onboarding_guard_ok in H. rewrite H.
  destruct (onboarding_in_progress _); split; try lia; split; done.
Qed.



(** Within the range of the doubles the growth step with its failures is
    the growth step of the runs. *)
Lemma add_scaled_operational_checked_Some (cfg : Config) (s t : SRE_team) :
  add_scaled_operational_checked cfg s = Some t ->
  t = add_scaled_operational cfg s.
Proof.
  unfold add_scaled_operational_checked, new_operational_work_checked,
    add_scaled_operational, new_operational_work.
  destruct (Float64.finite (Float64.of_int (operational_work s)));
    [|discriminate].
  destruct (Float64.finite (Float64.mul _ _)); [|discriminate].
  by intros [= <-].
Qed.

(** C6, as the program has it, for a growth factor that is a finite
    double.  When the baseline and its product with the growth factor are
    within the range of the doubles: below the cap the
    growth step appends [range(delta)] OPERATIONAL tokens at the tail of
    the queue, where [delta] is
    [round(baseline * growth) + onboardings - baseline], that is
    [max(0, delta)] tokens, none when [delta] is negative; at or above the
    cap it appends nothing; no other field changes.  Out of that range the
    first line raises [OverflowError], whatever the cap is. *)
Theorem growth_step_appends (cfg : Config) (s : SRE_team) :
  let b := operational_work s in
  let x := Float64.of_int b in
  let p := Float64.mul x (QUARTERLY_GROWTH cfg) in
  let delta := Float64.py_round p + onboardings s - b in
  (Float64.finite x = true -> Float64.finite p = true ->
   (b < SRE_TEAM_MAX_OPERATIONAL cfg ->
    add_scaled_operational_checked cfg s
    = Some (set_work_items
              (work_items s ++ repeat OPERATIONAL (Z.to_nat delta)) s)
    /\ Z.of_nat (length (repeat OPERATIONAL (Z.to_nat delta)))
       = Z.max 0 delta)
   /\ (SRE_TEAM_MAX_OPERATIONAL cfg <= b ->
       add_scaled_operational_checked cfg s = Some s))
  /\ (Float64.finite x = false \/ Float64.finite p = false ->
      add_scaled_operational_checked cfg s = None).
Proof.
  cbv zeta. unfold add_scaled_operational_checked,
    new_operational_work_checked. split.
  - intros -> ->. split.
    + intros Hb. apply Z.ltb_lt in Hb. rewrite Hb. split.
      * by rewrite iter_add_work.
      * rewrite repeat_length. lia.
    + intros Hb. apply Z.ltb_ge in Hb. by rewrite Hb.
  - intros [->| Hp]; [done|].
    destruct (Float64.finite (Float64.of_int (operational_work s)));
      [|done].
    by rewrite Hp.
Qed.

Lemma growth_step_appends_witness :
  add_scaled_operational_checked default_config
    (set_onboardings 3 (team_with_queue [IN_TEAM_PROJECT]))
  = Some (set_work_items
            [IN_TEAM_PROJECT; OPERATIONAL; OPERATIONAL; OPERATIONAL]
            (set_onboardings 3 (team_with_queue [IN_TEAM_PROJECT])))
  /\ add_scaled_operational_checked unchecked_config
       (set_onboardings 3 (team_with_queue [IN_TEAM_PROJECT]))
     = Some (set_onboardings 3 (team_with_queue [IN_TEAM_PROJECT]))
  /\ add_scaled_operational_checked huge_config (SRE_team_init huge_config)
     = None.
Proof.
  split; [|split].
  - apply (proj1 (growth_step_appends default_config
                    (set_onboardings 3 (team_with_queue [IN_TEAM_PROJECT])))
             ltac:(vm_compute; reflexivity) ltac:(vm_compute; reflexivity)).
    simpl. lia.
  - apply (proj1 (growth_step_appends unchecked_config
                    (set_onboardings 3 (team_with_queue [IN_TEAM_PROJECT])))
             ltac:(vm_compute; reflexivity) ltac:(vm_compute; reflexivity)).
    simpl. lia.
  - apply (proj2 (growth_step_appends huge_config
                    (SRE_team_init huge_config))).
    left. vm_compute. reflexivity.
Defined.

(** C6 as stated fails where the new level is below the baseline, and where
    the baseline is out of the range of the doubles.  With a growth factor
    of 0.5 and a baseline of 10, under the cap of 20, the new level is 5:
    the difference is -5 and the step appends nothing.  With a baseline of
    [10^400], far above the cap, the step does not append zero tokens but
    raises [OverflowError]. *)
Lemma growth_step_negative_or_overflow :
  operational_work (SRE_team_init shrinking_config)
  < SRE_TEAM_MAX_OPERATIONAL shrinking_config
  /\ new_operational_work_checked shrinking_config
       (SRE_team_init shrinking_config) = Some 5
  /\ 5 - operational_work (SRE_team_init shrinking_config) = -5
  /\ add_scaled_operational_checked shrinking_config
       (SRE_team_init shrinking_config)
     = Some (SRE_team_init shrinking_config)
  /\ SRE_TEAM_MAX_OPERATIONAL huge_config
     <= operational_work (SRE_team_init huge_config)
  /\ add_scaled_operational_checked huge_config (SRE_team_init huge_config)
     = None.
Proof.
  repeat split; try (vm_compute; reflexivity).
  vm_compute. discriminate.
Qed.

(** C7.  A pass that pops an ONBOARDING token appends one IN_TEAM_PROJECT
    and one OPERATIONAL token at the tail, clears the guard, uses 2 units
    of capacity and adds 1 to the tally of CROSS_TEAM_PROJECT, none to the
    tally of ONBOARDING; and in every run all entries of the performed
    series of ONBOARDING are 0. *)
Theorem onboarding_pass_and_series :
  (forall cfg draws ls q,
     work_items (team ls) = ONBOARDING :: q ->
     exists ls',
       loop_body cfg draws ls = Some ls'
       /\ work_items (team ls') = q ++ [IN_TEAM_PROJECT; OPERATIONAL]
       /\ onboarding_in_progress (team ls') = false
       /\ capacity ls' = capacity ls + 2
       /\ op_counter ls' = op_counter ls
       /\ tally (tracking (team ls')) CROSS_TEAM_PROJECT
          = tally (tracking (team ls)) CROSS_TEAM_PROJECT + 1
       /\ forall c, c ≠ CROSS_TEAM_PROJECT ->
            tally (tracking (team ls')) c = tally (tracking (team ls)) c)
  /\ (forall cfg draws n,
        Forall (fun v => v = 0)
          (series
             (performed_history_dict
                (run_ticks cfg draws n (SRE_team_init cfg, 0%nat)).1)
             ONBOARDING)).
Proof.
  split.
  - intros cfg draws ls q Hq. unfold loop_body. rewrite Hq. simpl.
    eexists. split; [reflexivity|]. simpl.
    rewrite <- app_assoc. repeat split; try done.
    + apply tally_incr_eq.
    + intros c Hc. by apply tally_incr_ne.
  - intros cfg draws n.
    apply (run_ticks_invariant cfg draws onboarding_untallied).
    + apply run_step_untallied.
    + split; [reflexivity|]. apply Forall_nil_2.
Qed.

Lemma onboarding_pass_and_series_witness :
  exists ls',
    loop_body default_config no_draws
      (mkLoop 0 0 (team_with_queue [ONBOARDING; OPERATIONAL]) 0) = Some ls'
    /\ work_items (team ls') = [OPERATIONAL; IN_TEAM_PROJECT; OPERATIONAL]
    /\ onboarding_in_progress (team ls') = false
    /\ capacity ls' = 2.
Proof.
  destruct (proj1 onboarding_pass_and_series default_config no_draws
              (mkLoop 0 0 (team_with_queue [ONBOARDING; OPERATIONAL]) 0)
              [OPERATIONAL] eq_refl)
    as (ls' & H1 & H2 & H3 & H4 & _).
  exists ls'. repeat split; assumption.
Defined.



(** C9.  The processing loop terminates from every state and for every
    stream of draws, after at most [loop_measure] passes; each pass is made
    below the capacity limit on a non-empty queue, and the loop is left
    either with the capacity counter at or above the limit, or below the
    limit on an empty queue, the failed [popleft] ending the loop and
    [process_work] returning the team as usual. *)
Theorem process_loop_terminates (cfg : Config) (draws : nat -> Z)
    (s : SRE_team) (k : nat) :
  exists (n : nat) (final : loop_state) (ex : loop_exit),
    process_work_loop cfg draws s k = (final, ex)
    /\ process_work cfg draws s k = (team final, rng final)
    /\ loop_run cfg draws n (mkLoop 0 0 (set_tracking ∅ s) k) final ex
    /\ (n <= Z.to_nat (2 * SRE_TEAM_CAPACITY cfg) + length (work_items s))%nat
    /\ match ex with
       | CapacityReached => SRE_TEAM_CAPACITY cfg <= capacity final
       | QueueEmpty =>
           capacity final < SRE_TEAM_CAPACITY cfg
           /\ work_items (team final) = []
       end.
Proof.
  unfold process_work, process_work_loop.
  destruct (process_loop_run cfg draws (mkLoop 0 0 (set_tracking ∅ s) k))
    as (n & Hn & Hrun).
  destruct (process_loop cfg draws _) as [final ex] eqn:E. simpl in *.
  exists n, final, ex. repeat split; try done.
  - unfold loop_measure in Hn. simpl in Hn.
    by replace (2 * (SRE_TEAM_CAPACITY cfg - 0)) with (2 * SRE_TEAM_CAPACITY cfg)
      in Hn by lia.
  - by apply (loop_run_exit cfg draws n _ _ _ Hrun).
Qed.

(** C10.  In every tick the four tallies add up to at most the capacity
    limit of 10, and the capacity counter ends at 11 at most; it does end
    at 11 when an ONBOARDING token is processed with the counter at 9, the
    tallies then adding up to 10. *)
Theorem total_tally_within_capacity :
  (forall draws s k,
     let final := (process_work_loop default_config draws s k).1 in
     total_tally (tracking (process_work default_config draws s k).1) <= 10
     /\ capacity final <= 11)
  /\ (let final :=
        (process_work_loop default_config no_draws
           (team_with_queue (repeat IN_TEAM_PROJECT 9 ++ [ONBOARDING])) 0).1 in
      capacity final = 11
      /\ total_tally (tracking (team final)) = 10
      /\ tally (tracking (team final)) ONBOARDING = 0).
Proof.
  split; [|by vm_compute].
  intros draws s k. cbv zeta. unfold process_work, process_work_loop. simpl.
  apply (total_tally_invariant default_config draws
           (mkLoop 0 0 (set_tracking ∅ s) k)); simpl;
    rewrite ?tally_empty; unfold total_tally; rewrite ?tally_empty; lia.
Qed.

(** * Further properties of the program *)

(** ** Removing the first token of a type *)

Lemma remove_first_None (x : WorkType) (q : list WorkType) :
  remove_first x q = None <-> x ∉ q.
Proof.
  induction q as [|y q IH]; simpl.
  - split; [intros _; apply not_elem_of_nil|done].
  - rewrite not_elem_of_cons. destruct (decide (y = x)) as [->|Hne].
    + split; [discriminate|]. by intros [? _].
    + destruct (remove_first x q) as [r|].
      * split; [discriminate|]. intros [_ Hx]. by apply IH in Hx.
      * split; [|done]. intros _. split; [done|]. by apply IH.
Qed.

Lemma remove_first_Some (x : WorkType) (q q' : list WorkType) :
  remove_first x q = Some q' ->
  exists l1 l2, q = l1 ++ x :: l2 /\ (x ∉ l1) /\ q' = l1 ++ l2.
Proof.
  revert q'. induction q as [|y q IH]; intros q' Hr; simpl in Hr.
  - discriminate.
  - destruct (decide (y = x)) as [->|Hne].
    + inversion Hr; subst. exists [], q'. split; [done|].
      split; [apply not_elem_of_nil|done].
    + destruct (remove_first x q) as [r|]; [|discriminate].
      inversion Hr; subst.
      destruct (IH r eq_refl) as (l1 & l2 & -> & Hx & ->).
      exists (y :: l1), l2. split; [done|]. split; [|done].
      rewrite not_elem_of_cons. split; [by intros ->|done].
Qed.

(** X1.  [clear_first_of_type] leaves the team as it is when the queue has
    no token of the type (the [ValueError] is swallowed), and otherwise
    takes out the first token of the type and nothing else: the tokens
    before and after it stay, in their order. *)
Theorem clear_first_of_type_spec (x : WorkType) (s : SRE_team) :
  (x ∉ work_items s -> clear_first_of_type x s = s)
  /\ (x ∈ work_items s ->
      exists l1 l2,
        work_items s = l1 ++ x :: l2 /\ (x ∉ l1)
        /\ clear_first_of_type x s = set_work_items (l1 ++ l2) s).
Proof.
  unfold clear_first_of_type. split.
  - intros Hx. apply remove_first_None in Hx. by rewrite Hx.
  - intros Hx. destruct (remove_first x (work_items s)) as [q'|] eqn:Hr.
    + destruct (remove_first_Some _ _ _ Hr) as (l1 & l2 & H1 & H2 & ->).
      by exists l1, l2.
    + apply remove_first_None in Hr. done.
Qed.

Lemma clear_first_of_type_spec_witness :
  clear_first_of_type ONBOARDING (team_with_queue [OPERATIONAL]) 
  = team_with_queue [OPERATIONAL]
  /\ exists l1 l2,
       [IN_TEAM_PROJECT; OPERATIONAL; CROSS_TEAM_PROJECT; OPERATIONAL]
       = l1 ++ OPERATIONAL :: l2
       /\ (OPERATIONAL ∉ l1)
       /\ clear_first_of_type OPERATIONAL
            (team_with_queue
               [IN_TEAM_PROJECT; OPERATIONAL; CROSS_TEAM_PROJECT; OPERATIONAL])
          = set_work_items (l1 ++ l2)
              (team_with_queue
                 [IN_TEAM_PROJECT; OPERATIONAL; CROSS_TEAM_PROJECT;
                  OPERATIONAL]).
Proof.
  split.
  - apply (proj1 (clear_first_of_type_spec ONBOARDING
                    (team_with_queue [OPERATIONAL]))).
    simpl. rewrite elem_of_cons, elem_of_nil. intros [?|[]]. discriminate.
  - apply (proj2 (clear_first_of_type_spec OPERATIONAL
                    (team_with_queue
                       [IN_TEAM_PROJECT; OPERATIONAL; CROSS_TEAM_PROJECT;
                        OPERATIONAL]))).
    simpl. rewrite !elem_of_cons. auto.
Defined.

(** ** What the census records *)

Lemma count_occ_partition (q : list WorkType) :
  (count_occ WorkType_eq_dec q OPERATIONAL
   + count_occ WorkType_eq_dec q IN_TEAM_PROJECT
   + count_occ WorkType_eq_dec q CROSS_TEAM_PROJECT
   + count_occ WorkType_eq_dec q ONBOARDING = length q)%nat.
Proof.
  induction q as [|x q IH]; [done|]. destruct x; simpl; lia.
Qed.

(** X2.  The four entries that one [census] appends to the assigned series
    add up to the length of the queue: every queued token is counted under
    exactly one work type. *)
Theorem census_counts_whole_queue (s : SRE_team) :
  exists n : WorkType -> Z,
    (forall c, series (assigned_history_dict (census s)) c
               = series (assigned_history_dict s) c ++ [n c])
    /\ n OPERATIONAL + n IN_TEAM_PROJECT + n CROSS_TEAM_PROJECT + n ONBOARDING
       = Z.of_nat (length (work_items s)).
Proof.
  exists (fun c => Z.of_nat (count_occ WorkType_eq_dec (work_items s) c)).
  split; [apply census_assigned|].
  pose proof (count_occ_partition (work_items s)). lia.
Qed.

(** ** Onboardings *)

Lemma assign_work_onboardings (cfg : Config) (draws : nat -> Z)
    (s : SRE_team) (k : nat) :
  let s' := (assign_work cfg draws s k).1 in
  (onboardings s' = onboardings s
   /\ onboarding_in_progress s' = onboarding_in_progress s)
  \/ (onboardings s < SRE_TEAM_ONBOARDINGS_LIMIT cfg
      /\ onboarding_in_progress s = false
      /\ onboardings s' = onboardings s + 1
      /\ onboarding_in_progress s' = true).
Proof.
  cbv zeta. unfold assign_work, randint. simpl.
  rewrite (add_scaled_operational_frame cfg onboardings) by done.
  rewrite (add_scaled_operational_frame cfg onboarding_in_progress) by done.
  set (s1 := if 9 <? draws k then _ else s).
  assert (H1 : onboardings s1 = onboardings s
               /\ onboarding_in_progress s1 = onboarding_in_progress s).
  { subst s1. destruct (9 <? draws k); [|done].
    rewrite !(clear_first_of_type_frame onboardings) by done.
    by rewrite !(clear_first_of_type_frame onboarding_in_progress). }
  destruct H1 as [Ho Hf]. rewrite <- Ho, <- Hf.
  destruct (8 <? draws (S k)); simpl; [|by left].
  destruct (onboarding_in_progress s1) eqn:Hflag; simpl; [by left|].
  destruct (onboardings s1 <? SRE_TEAM_ONBOARDINGS_LIMIT cfg) eqn:Hlim;
    [|by left].
  right. apply Z.ltb_lt in Hlim. done.
Qed.

Lemma process_work_flag_false (cfg : Config) (draws : nat -> Z)
    (s : SRE_team) (k : nat) :
  onboarding_in_progress s = false ->
  onboarding_in_progress (process_work cfg draws s k).1 = false.
Proof.
  intros Hs. unfold process_work, process_work_loop. simpl.
  apply (process_loop_invariant cfg draws
           (fun ls => onboarding_in_progress (team ls) = false)); [|done].
  intros ls ls' _ Hb Hf. destruct ls as [c o t k']; simpl in *.
  body_cases Hb; done.
Qed.

Lemma run_step_onboardings (cfg : Config) (draws : nat -> Z)
    (w : SRE_team * nat) :
  onboardings (run_step cfg draws w).1 = onboardings w.1
  \/ (onboardings w.1 < SRE_TEAM_ONBOARDINGS_LIMIT cfg
      /\ onboardings (run_step cfg draws w).1 = onboardings w.1 + 1).
Proof.
  destruct (work_items w.1) as [|x q] eqn:Hq.
  - left. by rewrite run_step_bootstrap.
  - rewrite run_step_steady by (by rewrite Hq). cbv zeta.
    rewrite (process_work_frame cfg draws onboardings) by done.
    destruct (assign_work_onboardings cfg draws
                (census (set_ticks (ticks w.1 + 1) w.1)) w.2)
      as [[Ho _]|(Hlt & _ & Ho & _)]; rewrite Ho; [by left|by right].
Qed.

(** X3.  The count of onboardings starts at 0, goes up by at most one per
    tick and never goes down, and never passes the onboarding limit. *)
Theorem onboardings_bounded (cfg : Config) (draws : nat -> Z) (n : nat) :
  let w := run_ticks cfg draws n (SRE_team_init cfg, 0%nat) in
  0 <= onboardings w.1 <= Z.max 0 (SRE_TEAM_ONBOARDINGS_LIMIT cfg)
  /\ onboardings w.1 <= onboardings (run_step cfg draws w).1
     <= onboardings w.1 + 1.
Proof.
  cbv zeta. split.
  - apply (run_ticks_invariant cfg draws
             (fun s => 0 <= onboardings s
                            <= Z.max 0 (SRE_TEAM_ONBOARDINGS_LIMIT cfg))).
    + intros w Hw. destruct (run_step_onboardings cfg draws w) as [->|[? ->]];
        lia.
    + simpl. lia.
  - destruct (run_step_onboardings cfg draws
                (run_ticks cfg draws n (SRE_team_init cfg, 0%nat)))
      as [->|[? ->]]; lia.
Qed.

(** X4.  With an onboarding limit of 0 or less no onboarding is ever
    admitted: the count stays 0, the guard is never set and no ONBOARDING
    token enters the queue. *)
Theorem no_onboarding_without_limit (cfg : Config) (draws : nat -> Z)
    (n : nat) :
  SRE_TEAM_ONBOARDINGS_LIMIT cfg <= 0 ->
  let s := (run_ticks cfg draws n (SRE_team_init cfg, 0%nat)).1 in
  onboardings s = 0 /\ onboarding_in_progress s = false
  /\ queued ONBOARDING s = 0%nat.
Proof.
  intros Hlim. cbv zeta.
  assert (H : onboardings (run_ticks cfg draws n (SRE_team_init cfg, 0%nat)).1
              = 0
              /\ onboarding_in_progress
                   (run_ticks cfg draws n (SRE_team_init cfg, 0%nat)).1
                 = false).
  { apply (run_ticks_invariant cfg draws
             (fun s => onboardings s = 0 /\ onboarding_in_progress s = false));
      [|done].
    intros w [Ho Hf]. destruct (work_items w.1) as [|x q] eqn:Hq.
    - by rewrite run_step_bootstrap.
    - rewrite run_step_steady by (by rewrite Hq). cbv zeta.
      rewrite (process_work_frame cfg draws onboardings) by done.
      destruct (assign_work_onboardings cfg draws
                  (census (set_ticks (ticks w.1 + 1) w.1)) w.2)
        as [[Ho' Hf']|(Hlt & _)].
      + split; [by rewrite Ho'|].
        apply process_work_flag_false. by rewrite Hf'.
      + simpl in Hlt. lia. }
  destruct H as [Ho Hf]. split; [done|]. split; [done|].
  assert (Hg : onboarding_guard_ok
                 (run_ticks cfg draws n (SRE_team_init cfg, 0%nat)).1).
  { apply run_ticks_invariant; [apply run_step_guard|reflexivity]. }
  unfold onboarding_guard_ok in Hg. by rewrite Hf in Hg.
Qed.

Lemma no_onboarding_without_limit_witness :
  let s := (run_ticks unchecked_config (fun _ => 10) 30
              (SRE_team_init unchecked_config, 0%nat)).1 in
  onboardings s = 0 /\ onboarding_in_progress s = false
  /\ queued ONBOARDING s = 0%nat.
Proof.
  apply (no_onboarding_without_limit unchecked_config (fun _ => 10) 30).
  simpl. lia.
Defined.

(** ** What one round of processing does to the queue *)

Lemma process_loop_conserves (cfg : Config) (draws : nat -> Z)
    (f : loop_state -> Z) :
  (forall ls ls',
     capacity ls < SRE_TEAM_CAPACITY cfg ->
     loop_body cfg draws ls = Some ls' -> f ls' = f ls) ->
  forall ls, f (process_loop cfg draws ls).1 = f ls.
Proof.
  intros Hstep ls.
  apply (process_loop_invariant cfg draws (fun ls' => f ls' = f ls)); [|done].
  intros l l' Hc Hb <-. by apply Hstep.
Qed.

Lemma process_loop_nonincreasing (cfg : Config) (draws : nat -> Z)
    (f : loop_state -> Z) :
  (forall ls ls',
     capacity ls < SRE_TEAM_CAPACITY cfg ->
     loop_body cfg draws ls = Some ls' -> f ls' <= f ls) ->
  forall ls, f (process_loop cfg draws ls).1 <= f ls.
Proof.
  intros Hstep ls.
  apply (process_loop_invariant cfg draws (fun ls' => f ls' <= f ls)); [|lia].
  intros l l' Hc Hb Hl. specialize (Hstep l l' Hc Hb). lia.
Qed.

(** X5.  Processing never loses an in-team project: the in-team projects
    and the pending onboardings together are as many after [process_work]
    as before, an onboarding turning into an in-team project when it is
    processed; no onboarding is added. *)
Theorem process_work_keeps_in_team (cfg : Config) (draws : nat -> Z)
    (s : SRE_team) (k : nat) :
  let t := (process_work cfg draws s k).1 in
  (queued IN_TEAM_PROJECT t + queued ONBOARDING t
   = queued IN_TEAM_PROJECT s + queued ONBOARDING s)%nat
  /\ (queued ONBOARDING t <= queued ONBOARDING s)%nat
  /\ (queued IN_TEAM_PROJECT s <= queued IN_TEAM_PROJECT t)%nat.
Proof.
  cbv zeta. unfold process_work, process_work_loop. simpl.
  pose proof (process_loop_conserves cfg draws
                (fun ls => Z.of_nat (queued IN_TEAM_PROJECT (team ls)
                                     + queued ONBOARDING (team ls)))) as H1.
  pose proof (process_loop_nonincreasing cfg draws
                (fun ls => Z.of_nat (queued ONBOARDING (team ls)))) as H2.
  specialize (H1 ltac:(
    intros ls ls' _ Hb; unfold queued; destruct ls as [c o t k']; simpl in *;
    body_cases Hb; rewrite ?count_occ_app; simpl; lia)
    (mkLoop 0 0 (set_tracking ∅ s) k)).
  specialize (H2 ltac:(
    intros ls ls' _ Hb; unfold queued; destruct ls as [c o t k']; simpl in *;
    body_cases Hb; rewrite ?count_occ_app; simpl; lia)
    (mkLoop 0 0 (set_tracking ∅ s) k)).
  simpl in H1, H2. unfold queued in *. simpl in *. lia.
Qed.

(** X6.  Processing lengthens the queue by at most the number of
    onboardings it resolves: the queue length plus the pending onboardings
    never goes up. *)
Theorem process_work_queue_length (cfg : Config) (draws : nat -> Z)
    (s : SRE_team) (k : nat) :
  let t := (process_work cfg draws s k).1 in
  (length (work_items t) + queued ONBOARDING t
   <= length (work_items s) + queued ONBOARDING s)%nat.
Proof.
  cbv zeta. unfold process_work, process_work_loop. simpl.
  pose proof (process_loop_nonincreasing cfg draws
                (fun ls => Z.of_nat (length (work_items (team ls))
                                     + queued ONBOARDING (team ls)))) as H.
  specialize (H ltac:(
    intros ls ls' _ Hb; unfold queued; destruct ls as [c o t k']; simpl in *;
    body_cases Hb; rewrite ?length_app, ?count_occ_app; simpl; lia)
    (mkLoop 0 0 (set_tracking ∅ s) k)).
  simpl in H. unfold queued in *. simpl in *. lia.
Qed.

(** X7.  The capacity counter is the work tallied plus one more unit for
    every onboarding resolved (an onboarding costs 2 and tallies 1).  So a
    round that stops at the capacity limit has tallied at least the limit
    minus the onboardings that were pending. *)
Theorem process_work_capacity_accounting (cfg : Config) (draws : nat -> Z)
    (s : SRE_team) (k : nat) :
  let r := process_work_loop cfg draws s k in
  capacity r.1 + Z.of_nat (queued ONBOARDING (team r.1))
  = total_tally (tracking (team r.1)) + Z.of_nat (queued ONBOARDING s)
  /\ (r.2 = CapacityReached ->
      SRE_TEAM_CAPACITY cfg - Z.of_nat (queued ONBOARDING s)
      <= total_tally (tracking (team r.1))).
Proof.
  cbv zeta. unfold process_work_loop.
  pose proof (process_loop_conserves cfg draws
                (fun ls => capacity ls
                           + Z.of_nat (queued ONBOARDING (team ls))
                           - total_tally (tracking (team ls)))) as H.
  specialize (H ltac:(
    intros ls ls' _ Hb; unfold queued, total_tally;
    destruct ls as [c o t k']; simpl in *;
    body_cases Hb; rewrite ?count_occ_app, ?tally_incr_eq, ?tally_incr_ne by done;
    simpl; lia)
    (mkLoop 0 0 (set_tracking ∅ s) k)).
  simpl in H. unfold total_tally in H at 2. rewrite !tally_empty in H.
  split; [unfold queued in *; simpl in *; lia|].
  intros Hex.
  destruct (process_loop_run cfg draws (mkLoop 0 0 (set_tracking ∅ s) k))
    as (n & _ & Hrun).
  apply loop_run_exit in Hrun. rewrite Hex in Hrun.
  unfold queued in *. simpl in *. lia.
Qed.

Lemma process_work_capacity_accounting_witness :
  let r := process_work_loop default_config no_draws
             (team_with_queue (repeat IN_TEAM_PROJECT 9 ++ [ONBOARDING])) 0 in
  10 - 1 <= total_tally (tracking (team r.1)).
Proof.
  apply (proj2 (process_work_capacity_accounting default_config no_draws
                  (team_with_queue (repeat IN_TEAM_PROJECT 9 ++ [ONBOARDING]))
                  0)).
  vm_compute. reflexivity.
Defined.

(** ** The random draws *)

(** X8.  The draws are made in a fixed order and number: [assign_work]
    makes exactly two, whatever the team and the values drawn; the refill
    of an empty queue makes none; [process_work] makes one for every
    cross-team project it processes, that is its CROSS_TEAM_PROJECT tally
    less the onboardings it resolved. *)
Theorem draws_accounting (cfg : Config) (draws : nat -> Z)
    (s : SRE_team) (k : nat) :
  (assign_work cfg draws s k).2 = S (S k)
  /\ (work_items s = [] -> (run_step cfg draws (s, k)).2 = k)
  /\ (let t := process_work cfg draws s k in
      Z.of_nat t.2 + Z.of_nat (queued ONBOARDING s)
      = Z.of_nat k + tally (tracking t.1) CROSS_TEAM_PROJECT
        + Z.of_nat (queued ONBOARDING t.1)).
Proof.
  split; [reflexivity|]. split.
  - intros Hq. by rewrite run_step_bootstrap.
  - cbv zeta. unfold process_work, process_work_loop. simpl.
    pose proof (process_loop_conserves cfg draws
                  (fun ls => Z.of_nat (rng ls)
                             - tally (tracking (team ls)) CROSS_TEAM_PROJECT
                             - Z.of_nat (queued ONBOARDING (team ls)))) as H.
    specialize (H ltac:(
      intros ls ls' _ Hb; unfold queued;
      destruct ls as [c o t k']; simpl in *;
      body_cases Hb;
      rewrite ?count_occ_app, ?tally_incr_eq, ?tally_incr_ne by done;
      simpl; lia)
      (mkLoop 0 0 (set_tracking ∅ s) k)).
    simpl in H. rewrite tally_empty in H.
    unfold queued in *. simpl in *. lia.
Qed.

Lemma draws_accounting_witness :
  (run_step default_config no_draws
     (team_with_queue [], 7%nat)).2 = 7%nat.
Proof.
  apply (proj1 (proj2 (draws_accounting default_config no_draws
                         (team_with_queue []) 7))).
  reflexivity.
Defined.

(** ** Runs without cross-team escalation *)

Lemma add_scaled_operational_queued (cfg : Config) (s : SRE_team)
    (c : WorkType) :
  c ≠ OPERATIONAL ->
  queued c (add_scaled_operational cfg s) = queued c s.
Proof.
  intros Hc. unfold add_scaled_operational, queued.
  destruct (operational_work s <? SRE_TEAM_MAX_OPERATIONAL cfg); [|done].
  rewrite iter_add_work. simpl.
  rewrite count_occ_app, count_occ_repeat_ne by done. lia.
Qed.

Lemma assign_work_in_team (cfg : Config) (draws : nat -> Z)
    (s : SRE_team) (k : nat) :
  draws k <= 9 ->
  queued IN_TEAM_PROJECT (assign_work cfg draws s k).1
  = queued IN_TEAM_PROJECT s.
Proof.
  intros Hd. unfold assign_work, randint. simpl.
  rewrite add_scaled_operational_queued by done.
  replace (9 <? draws k) with false by (symmetry; apply Z.ltb_ge; lia).
  destruct (_ && _); [|done].
  unfold queued. simpl. rewrite count_occ_app. simpl. lia.
Qed.

Lemma process_work_in_team_le (cfg : Config) (draws : nat -> Z)
    (s : SRE_team) (k : nat) :
  (queued IN_TEAM_PROJECT s
   <= queued IN_TEAM_PROJECT (process_work cfg draws s k).1)%nat.
Proof.
  unfold process_work, process_work_loop. simpl.
  pose proof (process_loop_nonincreasing cfg draws
                (fun ls => - Z.of_nat (queued IN_TEAM_PROJECT (team ls)))) as H.
  specialize (H ltac:(
    intros ls ls' _ Hb; unfold queued; destruct ls as [c o t k']; simpl in *;
    body_cases Hb; rewrite ?count_occ_app; simpl; lia)
    (mkLoop 0 0 (set_tracking ∅ s) k)).
  simpl in H. unfold queued in *. simpl in *. lia.
Qed.

Lemma run_step_in_team (cfg : Config) (draws : nat -> Z)
    (w : SRE_team * nat) :
  (forall k, draws k <= 9) ->
  (4 <= queued IN_TEAM_PROJECT w.1)%nat \/ work_items w.1 = [] ->
  (4 <= queued IN_TEAM_PROJECT (run_step cfg draws w).1)%nat.
Proof.
  intros Hd Hw. destruct (work_items w.1) as [|x q] eqn:Hq.
  - rewrite run_step_bootstrap by done. unfold queued. simpl. lia.
  - destruct Hw as [Hw|Hw]; [|discriminate].
    rewrite run_step_steady by (by rewrite Hq). cbv zeta.
    etransitivity; [|apply process_work_in_team_le].
    rewrite assign_work_in_team by apply Hd.
    unfold queued in *. unfold census. simpl. exact Hw.
Qed.

Lemma steady_ticks_all (cfg : Config) (draws : nat -> Z) (n : nat) :
  forall w,
    (forall m, (m < n)%nat -> work_items (run_ticks cfg draws m w).1 ≠ []) ->
    steady_ticks cfg draws n w = n.
Proof.
  induction n as [|n IH]; intros w Hw; [done|]. simpl.
  destruct (decide (length (work_items w.1) = 0%nat)) as [Hl|Hl].
  - exfalso. apply (Hw 0%nat); [lia|]. simpl. by destruct (work_items w.1).
  - rewrite IH; [done|]. intros m Hm. apply (Hw (S m)). lia.
Qed.

Lemma run_ticks_ticks (cfg : Config) (draws : nat -> Z) (n : nat)
    (w : SRE_team * nat) :
  ticks (run_ticks cfg draws n w).1 = ticks w.1 + Z.of_nat n.
Proof.
  induction n as [|n IH]; [simpl; lia|].
  rewrite run_ticks_S, run_step_ticks, IH. lia.
Qed.

Lemma in_team_kept_no_escalation (cfg : Config) (draws : nat -> Z) (n : nat) :
  (forall k, draws k <= 9) ->
  (4 <= queued IN_TEAM_PROJECT
          (run_ticks cfg draws (S n) (SRE_team_init cfg, 0%nat)).1)%nat.
Proof.
  intros Hd. induction n as [|n IH].
  - unfold queued. simpl. lia.
  - rewrite run_ticks_S. apply run_step_in_team; [done|by left].
Qed.

Lemma queue_kept_no_escalation (cfg : Config) (draws : nat -> Z) (n : nat) :
  (forall k, draws k <= 9) ->
  work_items (run_ticks cfg draws (S n) (SRE_team_init cfg, 0%nat)).1 ≠ [].
Proof.
  intros Hd Hq. pose proof (in_team_kept_no_escalation cfg draws n Hd) as H.
  unfold queued in H. rewrite Hq in H. simpl in H. lia.
Qed.

Lemma steady_ticks_no_escalation (cfg : Config) (draws : nat -> Z) (n : nat) :
  (forall k, draws k <= 9) ->
  steady_ticks cfg draws (S n) (SRE_team_init cfg, 0%nat) = n.
Proof.
  intros Hd.
  change (steady_ticks cfg draws (S n) (SRE_team_init cfg, 0%nat))
    with (0 + steady_ticks cfg draws n
                (run_step cfg draws (SRE_team_init cfg, 0%nat)))%nat.
  rewrite steady_ticks_all; [done|]. intros m _.
  by apply (queue_kept_no_escalation cfg draws m).
Qed.

(** X9.  When no draw exceeds 9, so that no cross-team escalation fires,
    the four in-team projects of the default distribution are never lost:
    after the first tick the queue is never empty again, and of any
    [n + 1] ticks the first refills the queue and the other [n] are steady
    ones. *)
Theorem no_refill_without_escalation (cfg : Config) (draws : nat -> Z)
    (n : nat) :
  (forall k, draws k <= 9) ->
  (4 <= queued IN_TEAM_PROJECT
          (run_ticks cfg draws (S n) (SRE_team_init cfg, 0%nat)).1)%nat
  /\ work_items (run_ticks cfg draws (S n) (SRE_team_init cfg, 0%nat)).1 ≠ []
  /\ steady_ticks cfg draws (S n) (SRE_team_init cfg, 0%nat) = n.
Proof.
  intros Hd. split; [by apply in_team_kept_no_escalation|].
  split; [by apply queue_kept_no_escalation|].
  by apply steady_ticks_no_escalation.
Qed.

Lemma no_refill_without_escalation_witness :
  steady_ticks default_config no_draws 8
    (SRE_team_init default_config, 0%nat) = 7%nat.
Proof.
  apply (no_refill_without_escalation default_config no_draws 7).
  intros k. unfold no_draws. lia.
Defined.

(** X10.  When no draw exceeds 9 and the simulation lasts at least one
    tick, the script ends with exactly one entry per tick in each of the
    eight series: the steady ticks give one each, and the census taken
    after the simulation makes up for the first tick, which records
    nothing. *)
Theorem script_series_match_ticks (cfg : Config) (draws : nat -> Z)
    (c : WorkType) :
  (forall k, draws k <= 9) ->
  1 <= SIM_DURATION cfg ->
  Z.of_nat (length (series (assigned_history_dict (script cfg draws)) c))
  = ticks (script cfg draws)
  /\ Z.of_nat (length (series (performed_history_dict (script cfg draws)) c))
     = ticks (script cfg draws).
Proof.
  intros Hd Hdur. unfold script, simulate.
  destruct (Z.to_nat (SIM_DURATION cfg)) as [|n] eqn:Hn; [lia|].
  assert (Hticks : ticks (census
                     (run_ticks cfg draws (S n) (SRE_team_init cfg, 0%nat)).1)
                   = Z.of_nat (S n)).
  { change (ticks (census ?s)) with (ticks s). rewrite run_ticks_ticks.
    simpl. lia. }
  destruct (run_ticks_series_length cfg draws (S n)
              (SRE_team_init cfg, 0%nat) 0) with (c := c) as [Ha Hp].
  { intros c'. by split. }
  rewrite Hticks, census_assigned, census_performed, !length_app.
  rewrite Ha, Hp, steady_ticks_no_escalation by done. simpl length. lia.
Qed.

Lemma script_series_match_ticks_witness :
  Z.of_nat (length (series (assigned_history_dict
                              (script default_config no_draws)) OPERATIONAL))
  = ticks (script default_config no_draws).
Proof.
  apply (script_series_match_ticks default_config no_draws OPERATIONAL).
  - intros k. unfold no_draws. lia.
  - simpl. lia.
Defined.

(** ** Operational work beyond the threshold *)

Lemma drain_operational_loop (draws : nat -> Z) (n : nat) :
  forall (o : Z) (t : SRE_team) (k : nat),
    work_items t = repeat OPERATIONAL n ->
    0 <= o <= 5 ->
    tally (tracking t) OPERATIONAL = o ->
    let r := (process_loop default_config draws (mkLoop o o t k)).1 in
    work_items (team r) = []
    /\ tally (tracking (team r)) OPERATIONAL = Z.min (o + Z.of_nat n) 5
    /\ (forall c, c ≠ OPERATIONAL ->
         tally (tracking (team r)) c = tally (tracking t) c)
    /\ capacity r = Z.min (o + Z.of_nat n) 5
    /\ rng r = k.
Proof.
  induction n as [|n IH]; intros o t k Hq Ho Ht; cbv zeta;
    assert (Hc : (o <? 10) = true) by (apply Z.ltb_lt; lia);
    rewrite process_loop_eq; unfold loop_body; simpl; rewrite Hq, !Hc; simpl.
  - rewrite Hq. repeat split; lia.
  - rewrite below_op_threshold_spec by (simpl; lia). simpl.
    destruct (2 * o <? 10) eqn:Hlt.
    + apply Z.ltb_lt in Hlt.
      destruct (IH (o + 1) (track OPERATIONAL (set_work_items
                                                 (repeat OPERATIONAL n) t)) k)
        as (H1 & H2 & H3 & H4 & H5);
        [done|lia|simpl; rewrite tally_incr_eq; lia|].
      split; [done|]. split; [lia|]. split; [|split; [lia|done]].
      intros c Hne. rewrite H3 by done. simpl. by apply tally_incr_ne.
    + apply Z.ltb_ge in Hlt.
      destruct (IH o (set_work_items (repeat OPERATIONAL n) t) k)
        as (H1 & H2 & H3 & H4 & H5); [done|lia|done|].
      split; [done|]. split; [lia|]. split; [|split; [lia|done]].
      intros c Hne. by rewrite H3.
Qed.

(** X11.  Operational tokens met after five have been tallied are thrown
    away, neither tallied nor put back: a queue holding nothing but [n]
    OPERATIONAL tokens is emptied in one round, which tallies
    [min(n, 5)] of them and nothing else, uses as much capacity and makes
    no draw. *)
Theorem operational_backlog_is_dropped (draws : nat -> Z) (n : nat)
    (s : SRE_team) (k : nat) :
  let r :=
    (process_work_loop default_config draws
       (set_work_items (repeat OPERATIONAL n) s) k).1 in
  work_items (team r) = []
  /\ tally (tracking (team r)) OPERATIONAL = Z.min (Z.of_nat n) 5
  /\ total_tally (tracking (team r)) = Z.min (Z.of_nat n) 5
  /\ capacity r = Z.min (Z.of_nat n) 5
  /\ rng r = k.
Proof.
  cbv zeta. unfold process_work_loop.
  destruct (drain_operational_loop draws n 0
              (set_tracking ∅ (set_work_items (repeat OPERATIONAL n) s)) k)
    as (H1 & H2 & H3 & H4 & H5); [done|lia|done|].
  simpl in *. split; [done|]. split; [done|]. split; [|done].
  unfold total_tally. rewrite H2, !H3 by done. rewrite !tally_empty. lia.
Qed.

(** ** The growth step in the runs of the program *)

(** [assign_work] is the growth step taken on [assign_before_growth],
    after two draws. *)
Lemma assign_work_split (cfg : Config) (draws : nat -> Z) (s : SRE_team)
    (k : nat) :
  assign_work cfg draws s k
  = (add_scaled_operational cfg (assign_before_growth cfg draws s k),
     S (S k)).
Proof. reflexivity. Qed.

Lemma default_growth_at_baseline (s : SRE_team) :
  operational_work s = 1 ->
  add_scaled_operational default_config s
  = set_work_items
      (work_items s ++ repeat OPERATIONAL (Z.to_nat (onboardings s))) s.
Proof.
  intros Hop. unfold add_scaled_operational, new_operational_work.
  rewrite Hop.
  replace (Float64.py_round
             (Float64.mul (Float64.of_int 1) (QUARTERLY_GROWTH default_config)))
    with 1 by (vm_compute; reflexivity).
  simpl. rewrite iter_add_work. do 3 f_equal. lia.
Qed.

(** X12.  In every steady tick of a run of the program the growth step
    appends as many OPERATIONAL tokens as there have been onboardings, the
    one admitted in that tick included, and the growth factor adds none:
    the baseline reads 1 and [round(1 * 1.15)] is 1.  The tick then
    processes the queue so extended. *)
Theorem growth_step_adds_onboardings (draws : nat -> Z) (n : nat) :
  let w := run_ticks default_config draws n
             (SRE_team_init default_config, 0%nat) in
  let s2 := assign_before_growth default_config draws
              (census (set_ticks (ticks w.1 + 1) w.1)) w.2 in
  work_items w.1 ≠ [] ->
  run_step default_config draws w
  = process_work default_config draws
      (set_work_items
         (work_items s2 ++ repeat OPERATIONAL (Z.to_nat (onboardings s2))) s2)
      (S (S w.2))
  /\ onboardings (run_step default_config draws w).1 = onboardings s2.
Proof.
  cbv zeta. intros Hq.
  set (w := run_ticks default_config draws n
              (SRE_team_init default_config, 0%nat)) in *.
  set (s2 := assign_before_growth default_config draws
               (census (set_ticks (ticks w.1 + 1) w.1)) w.2).
  assert (Hw : operational_work w.1 = 1).
  { subst w.
    apply (run_ticks_invariant default_config draws
             (fun s => operational_work s = 1)); [|done].
    intros w' Hw'. by rewrite run_step_operational_work. }
  assert (Hop : operational_work s2 = 1).
  { rewrite <- (add_scaled_operational_frame default_config
                  operational_work ltac:(done) s2).
    change (add_scaled_operational default_config s2)
      with (assign_work default_config draws
              (census (set_ticks (ticks w.1 + 1) w.1)) w.2).1.
    by rewrite (assign_work_frame default_config draws operational_work). }
  rewrite run_step_steady by done. cbv zeta.
  rewrite assign_work_split. fold s2. cbn [fst snd]. split.
  - by rewrite default_growth_at_baseline.
  - rewrite (process_work_frame default_config draws onboardings) by done.
    by apply (add_scaled_operational_frame default_config onboardings).
Qed.

Lemma growth_step_adds_onboardings_witness :
  let w := run_ticks default_config onboarding_draws 1
             (SRE_team_init default_config, 0%nat) in
  let s2 := assign_before_growth default_config onboarding_draws
              (census (set_ticks (ticks w.1 + 1) w.1)) w.2 in
  work_items w.1 ≠ []
  /\ onboardings s2 = 1
  /\ run_step default_config onboarding_draws w
     = process_work default_config onboarding_draws
         (set_work_items
            (work_items s2
             ++ repeat OPERATIONAL (Z.to_nat (onboardings s2))) s2)
         (S (S w.2)).
Proof.
  cbv zeta.
  assert (H : work_items
                (run_ticks default_config onboarding_draws 1
                   (SRE_team_init default_config, 0%nat)).1 ≠ [])
    by (vm_compute; discriminate).
  split; [exact H|]. split; [vm_compute; reflexivity|].
  exact (proj1 (growth_step_adds_onboardings onboarding_draws 1 H)).
Defined.

(** ** The threshold on operational work *)

(** X13.  For every capacity that a double holds exactly the test
    [op_counter < 0.5 * SRE_TEAM_CAPACITY] is the integer comparison
    [2 * op_counter < SRE_TEAM_CAPACITY]: the float arithmetic loses
    nothing. *)
Theorem op_threshold_is_exact (cfg : Config) (n : Z) :
  Z.abs (SRE_TEAM_CAPACITY cfg) < 2 ^ 53 ->
  below_op_threshold cfg n = true <-> 2 * n < SRE_TEAM_CAPACITY cfg.
Proof.
  intros Hcap. rewrite below_op_threshold_spec by done. apply Z.ltb_lt.
Qed.

Lemma op_threshold_is_exact_witness :
  below_op_threshold default_config 4 = true <-> 2 * 4 < 10.
Proof.
  apply (op_threshold_is_exact default_config 4). simpl. lia.
Defined.

(** ** The series as histories of a run *)

Lemma run_assigned_history (cfg : Config) (draws : nat -> Z) (n : nat)
    (c : WorkType) :
  (forall k, draws k <= 9) ->
  series (assigned_history_dict
            (run_ticks cfg draws (S n) (SRE_team_init cfg, 0%nat)).1) c
  = (fun j => Z.of_nat (queued c (run_ticks cfg draws (S j)
                                    (SRE_team_init cfg, 0%nat)).1))
    <$> seq 0 n.
Proof.
  intros Hd. induction n as [|n IH]; [done|].
  rewrite run_ticks_S.
  rewrite run_step_assigned by (by apply queue_kept_no_escalation).
  by rewrite IH, seq_S, fmap_app.
Qed.

(** X14.  When no draw exceeds 9, the series are the history of the run
    tick by tick: after [n + 1] ticks the [j]-th entry of an assigned
    series is the number of tokens of the work type that were queued at
    the end of tick [j + 1], and the [j]-th entry of a performed series is
    the tally that tick [j + 1] left (0 for the first tick, which only
    refills the queue). *)
Theorem series_are_histories (cfg : Config) (draws : nat -> Z) (n : nat)
    (c : WorkType) :
  (forall k, draws k <= 9) ->
  let after j := (run_ticks cfg draws (S j) (SRE_team_init cfg, 0%nat)).1 in
  series (assigned_history_dict (after n)) c
  = (fun j => Z.of_nat (queued c (after j))) <$> seq 0 n
  /\ series (performed_history_dict (after n)) c
     = (fun j => tally (tracking (after j)) c) <$> seq 0 n.
Proof.
  intros Hd. cbv zeta. split; [by apply run_assigned_history|].
  induction n as [|n IH]; [done|].
  rewrite run_ticks_S.
  rewrite run_step_performed by (by apply queue_kept_no_escalation).
  by rewrite IH, seq_S, fmap_app.
Qed.

Lemma series_are_histories_witness :
  series (assigned_history_dict
            (run_ticks default_config no_draws 3
               (SRE_team_init default_config, 0%nat)).1) IN_TEAM_PROJECT
  = [4; 4].
Proof.
  apply (proj1 (series_are_histories default_config no_draws 2
                  IN_TEAM_PROJECT ltac:(intros k; unfold no_draws; lia))).
Defined.

(** ** [sum_total_work] *)

Lemma dd_getitem_fst (h : gmap WorkType (list Z)) (k : WorkType) :
  (dd_getitem h k).1 = series h k.
Proof. unfold dd_getitem, series. by destruct (h !! k). Qed.

Lemma dd_getitem_series (h : gmap WorkType (list Z)) (k c : WorkType) :
  series (dd_getitem h k).2 c = series h c.
Proof.
  unfold dd_getitem, series. destruct (h !! k) eqn:Hk; [done|]. simpl.
  destruct (decide (k = c)) as [->|Hne].
  - by rewrite lookup_insert_eq, Hk.
  - by rewrite lookup_insert_ne.
Qed.

Lemma series_sum_at_ext (h h' : gmap WorkType (list Z)) (x : Z) :
  (forall c, series h c = series h' c) ->
  series_sum_at h x = series_sum_at h' x.
Proof. intros H. unfold series_sum_at. by rewrite !H. Qed.

Lemma sum_at_spec (h : gmap WorkType (list Z)) (x : Z) :
  (sum_at h x).1 = series_sum_at h x
  /\ forall c, series (sum_at h x).2 c = series h c.
Proof.
  unfold sum_at, series_sum_at.
  destruct (dd_getitem h OPERATIONAL) as [l1 h1] eqn:E1.
  pose proof (dd_getitem_fst h OPERATIONAL) as F1.
  pose proof (dd_getitem_series h OPERATIONAL) as S1.
  rewrite E1 in F1, S1. simpl in F1, S1. subst l1.
  destruct (list_getitem (series h OPERATIONAL) x) as [v1|]; [|done].
  destruct (dd_getitem h1 IN_TEAM_PROJECT) as [l2 h2] eqn:E2.
  pose proof (dd_getitem_fst h1 IN_TEAM_PROJECT) as F2.
  pose proof (dd_getitem_series h1 IN_TEAM_PROJECT) as S2.
  rewrite E2 in F2, S2. simpl in F2, S2. subst l2. rewrite S1.
  destruct (list_getitem (series h IN_TEAM_PROJECT) x) as [v2|].
  2: { split; [done|]. intros c. by rewrite S2, S1. }
  destruct (dd_getitem h2 CROSS_TEAM_PROJECT) as [l3 h3] eqn:E3.
  pose proof (dd_getitem_fst h2 CROSS_TEAM_PROJECT) as F3.
  pose proof (dd_getitem_series h2 CROSS_TEAM_PROJECT) as S3.
  rewrite E3 in F3, S3. simpl in F3, S3. subst l3. rewrite S2, S1.
  destruct (list_getitem (series h CROSS_TEAM_PROJECT) x) as [v3|].
  2: { split; [done|]. intros c. by rewrite S3, S2, S1. }
  destruct (dd_getitem h3 ONBOARDING) as [l4 h4] eqn:E4.
  pose proof (dd_getitem_fst h3 ONBOARDING) as F4.
  pose proof (dd_getitem_series h3 ONBOARDING) as S4.
  rewrite E4 in F4, S4. simpl in F4, S4. subst l4. rewrite S3, S2, S1.
  destruct (list_getitem (series h ONBOARDING) x) as [v4|];
    (split; [done|]; intros c; by rewrite S4, S3, S2, S1).
Qed.

Lemma sum_total_work_loop_spec (xs : list Z) :
  forall (h : gmap WorkType (list Z)) (sums : list Z),
    (sum_total_work_loop xs h sums).1
    = (fun l => sums ++ l) <$> mapM (series_sum_at h) xs
    /\ forall c, series (sum_total_work_loop xs h sums).2 c = series h c.
Proof.
  induction xs as [|x xs IH]; intros h sums; simpl.
  - by rewrite app_nil_r.
  - destruct (sum_at_spec h x) as [H1 H2].
    destruct (sum_at h x) as [[v|] h'] eqn:E; simpl in H1, H2; rewrite <- H1.
    + destruct (IH h' (sums ++ [v])) as [I1 I2]. split.
      * rewrite I1. rewrite (mapM_ext _ (series_sum_at h))
          by (intros y; by apply series_sum_at_ext).
        simpl. destruct (mapM (series_sum_at h) xs); simpl; [|done].
        by rewrite <- app_assoc.
      * intros c. by rewrite I2.
    + done.
Qed.

Lemma list_getitem_in_range (l : list Z) (x : Z) :
  0 <= x < Z.of_nat (length l) ->
  list_getitem l x = Some (l !!! Z.to_nat x).
Proof.
  intros Hx. unfold list_getitem.
  replace (x <? 0) with false by (symmetry; apply Z.ltb_ge; lia).
  replace (x <? 0) with false by (symmetry; apply Z.ltb_ge; lia).
  apply list_lookup_lookup_total_lt. lia.
Qed.

Lemma list_getitem_out_of_range (l : list Z) (x : Z) :
  Z.of_nat (length l) <= x -> 0 <= x -> list_getitem l x = None.
Proof.
  intros Hx H0. unfold list_getitem.
  replace (x <? 0) with false by (symmetry; apply Z.ltb_ge; lia).
  replace (x <? 0) with false by (symmetry; apply Z.ltb_ge; lia).
  apply lookup_ge_None. lia.
Qed.

Lemma mapM_pointwise (f : Z -> option Z) (g : Z -> Z) (xs : list Z) :
  (forall x, x ∈ xs -> f x = Some (g x)) -> mapM f xs = Some (g <$> xs).
Proof.
  intros H. apply mapM_Some_2. induction xs as [|x xs IH]; simpl.
  - constructor.
  - constructor.
    + apply H. left.
    + apply IH. intros y Hy. apply H. by right.
Qed.

Lemma sum_total_work_Some (s : SRE_team) :
  (forall c, ticks s
             <= Z.of_nat (length (series (assigned_history_dict s) c))) ->
  (sum_total_work s).1
  = Some ((fun x =>
             series (assigned_history_dict s) OPERATIONAL !!! Z.to_nat x
             + series (assigned_history_dict s) IN_TEAM_PROJECT !!! Z.to_nat x
             + series (assigned_history_dict s) CROSS_TEAM_PROJECT
                 !!! Z.to_nat x
             + series (assigned_history_dict s) ONBOARDING !!! Z.to_nat x)
          <$> seqZ 1 (ticks s - 1)).
Proof.
  intros Hlen. unfold sum_total_work. simpl.
  rewrite (proj1 (sum_total_work_loop_spec _ _ _)).
  erewrite mapM_pointwise; [done|].
  intros x Hx. apply elem_of_seqZ in Hx. unfold series_sum_at.
  rewrite !list_getitem_in_range; [done|..];
    match goal with |- context [series _ ?c] => specialize (Hlen c) end; lia.
Qed.

Lemma sum_total_work_None (s : SRE_team) (c : WorkType) :
  2 <= ticks s ->
  Z.of_nat (length (series (assigned_history_dict s) c)) < ticks s ->
  (sum_total_work s).1 = None.
Proof.
  intros Ht Hlen. unfold sum_total_work. simpl.
  rewrite (proj1 (sum_total_work_loop_spec _ _ _)).
  rewrite (mapM_None_2 (series_sum_at (assigned_history_dict s))); [done|].
  apply Exists_exists.
  exists (Z.max 1 (Z.of_nat (length (series (assigned_history_dict s) c)))).
  split; [apply elem_of_seqZ; lia|].
  unfold series_sum_at.
  assert (Hc : list_getitem (series (assigned_history_dict s) c)
                 (Z.max 1 (Z.of_nat
                             (length (series (assigned_history_dict s) c))))
               = None) by (apply list_getitem_out_of_range; lia).
  destruct c; rewrite Hc; repeat case_match; done.
Qed.

(** X15.  [sum_total_work] returns one sum for every index from 1 up to
    [ticks - 1], the sum of the four assigned series at that index, when
    every assigned series has at least [ticks] entries; the entries at
    index 0 are left out.  When the team has seen two ticks or more and
    some assigned series is shorter than [ticks], an [IndexError] escapes.
    Either way the series read the same afterwards. *)
Theorem sum_total_work_result (s : SRE_team) :
  let h := assigned_history_dict s in
  ((forall c, ticks s <= Z.of_nat (length (series h c))) ->
   exists sums,
     (sum_total_work s).1 = Some sums
     /\ Z.of_nat (length sums) = Z.max 0 (ticks s - 1)
     /\ forall i : nat,
          Z.of_nat i < ticks s - 1 ->
          sums !! i
          = Some (series h OPERATIONAL !!! S i
                  + series h IN_TEAM_PROJECT !!! S i
                  + series h CROSS_TEAM_PROJECT !!! S i
                  + series h ONBOARDING !!! S i))
  /\ (forall c,
        2 <= ticks s -> Z.of_nat (length (series h c)) < ticks s ->
        (sum_total_work s).1 = None)
  /\ (forall c,
        series (assigned_history_dict (sum_total_work s).2) c = series h c).
Proof.
  cbv zeta. split; [|split].
  - intros Hlen. eexists. split; [by apply sum_total_work_Some|]. split.
    + rewrite length_fmap, length_seqZ. lia.
    + intros i Hi. rewrite list_lookup_fmap, lookup_seqZ_lt by lia. simpl.
      by replace (Z.to_nat (1 + Z.of_nat i)) with (S i) by lia.
  - intros c. apply sum_total_work_None.
  - intros c. unfold sum_total_work. simpl.
    apply (proj2 (sum_total_work_loop_spec _ _ _)).
Qed.

Lemma sum_total_work_result_witness :
  (sum_total_work (run_ticks default_config no_draws 3
                     (SRE_team_init default_config, 0%nat)).1).1 = None
  /\ exists sums,
       (sum_total_work (script default_config no_draws)).1 = Some sums
       /\ Z.of_nat (length sums) = Z.max 0 (100 - 1).
Proof.
  split.
  - apply (proj1 (proj2 (sum_total_work_result
                           (run_ticks default_config no_draws 3
                              (SRE_team_init default_config, 0%nat)).1))
             OPERATIONAL); vm_compute; first [reflexivity|discriminate].
  - destruct (proj1 (sum_total_work_result (script default_config no_draws)))
      as (sums & H1 & H2 & _).
    + intros c. destruct c; vm_compute; discriminate.
    + exists sums. split; [exact H1|exact H2].
Defined.

Lemma steady_ticks_le (cfg : Config) (draws : nat -> Z) (n : nat) :
  forall w, (steady_ticks cfg draws n w <= n)%nat.
Proof.
  induction n as [|n IH]; intros w; simpl; [lia|].
  specialize (IH (run_step cfg draws w)). destruct (decide _); lia.
Qed.

(** X16.  In the course of a run, from the second tick on,
    [sum_total_work] always fails with an [IndexError]: the first tick
    records nothing, so the series have fewer entries than [ticks] until
    the script takes its last census. *)
Theorem sum_total_work_fails_during_run (cfg : Config) (draws : nat -> Z)
    (n : nat) :
  (sum_total_work
     (run_ticks cfg draws (S (S n)) (SRE_team_init cfg, 0%nat)).1).1 = None.
Proof.
  apply (sum_total_work_None _ OPERATIONAL).
  - rewrite run_ticks_ticks. simpl. lia.
  - rewrite run_ticks_ticks.
    destruct (run_ticks_series_length cfg draws (S (S n))
                (SRE_team_init cfg, 0%nat) 0) with (c := OPERATIONAL)
      as [Ha _].
    { intros c'. by split. }
    rewrite Ha.
    change (steady_ticks cfg draws (S (S n)) (SRE_team_init cfg, 0%nat))
      with (0 + steady_ticks cfg draws (S n)
                  (run_step cfg draws (SRE_team_init cfg, 0%nat)))%nat.
    pose proof (steady_ticks_le cfg draws (S n)
                  (run_step cfg draws (SRE_team_init cfg, 0%nat))).
    simpl ticks. lia.
Qed.

(** X17.  When no draw exceeds 9, [sum_total_work] called at the end of
    the script returns the length of the queue at the end of each tick
    from the second on: the sum over the four work types of what the
    census counted is the whole queue. *)
Theorem sum_total_work_after_script (cfg : Config) (draws : nat -> Z)
    (n : nat) :
  (forall k, draws k <= 9) ->
  Z.to_nat (SIM_DURATION cfg) = S n ->
  (sum_total_work (script cfg draws)).1
  = Some ((fun j =>
             Z.of_nat (length (work_items
                                 (run_ticks cfg draws (S (S j))
                                    (SRE_team_init cfg, 0%nat)).1)))
          <$> seq 0 n).
Proof.
  intros Hd Hn. unfold script, simulate. rewrite Hn.
  set (after := fun j => (run_ticks cfg draws (S j)
                            (SRE_team_init cfg, 0%nat)).1).
  assert (Hser : forall c,
             series (assigned_history_dict (census (after n))) c
             = (fun j => Z.of_nat (queued c (after j))) <$> seq 0 (S n)).
  { intros c. rewrite census_assigned. unfold after.
    rewrite run_assigned_history by done. by rewrite seq_S, fmap_app. }
  assert (Hticks : ticks (census (after n)) = Z.of_nat (S n)).
  { change (ticks (census ?s)) with (ticks s). unfold after.
    rewrite run_ticks_ticks. simpl. lia. }
  rewrite sum_total_work_Some.
  2: { intros c. fold (after n). rewrite Hser, length_fmap, length_seq. lia. }
  f_equal. fold (after n). rewrite Hticks.
  replace (Z.of_nat (S n) - 1) with (Z.of_nat n) by lia.
  unfold seqZ. rewrite Nat2Z.id, <- list_fmap_compose.
  apply list_fmap_ext. intros i j Hj. simpl.
  apply lookup_seq in Hj as [-> Hj]. simpl.
  replace (Z.to_nat (Z.of_nat i + 1)) with (S i) by lia.
  assert (Hget : forall c,
             series (assigned_history_dict (census (after n))) c !!! S i
             = Z.of_nat (queued c (after (S i)))).
  { intros c. apply list_lookup_total_correct.
    rewrite Hser, list_lookup_fmap, lookup_seq_lt by lia. done. }
  rewrite !Hget.
  pose proof (count_occ_partition (work_items (after (S i)))) as Hp.
  unfold queued, after in *.
  change (run_ticks cfg draws i
            (run_step cfg draws
               (run_step cfg draws (SRE_team_init cfg, 0%nat))))
    with (run_ticks cfg draws (S (S i)) (SRE_team_init cfg, 0%nat)).
  lia.
Qed.

Lemma sum_total_work_after_script_witness :
  (sum_total_work (script default_config no_draws)).1
  = Some ((fun j =>
             Z.of_nat (length (work_items
                                 (run_ticks default_config no_draws (S (S j))
                                    (SRE_team_init default_config, 0%nat)).1)))
          <$> seq 0 99).
Proof.
  apply (sum_total_work_after_script default_config no_draws 99).
  - intros k. unfold no_draws. lia.
  - reflexivity.
Defined.

(** ** [enum] *)




















(** The enum of the program agrees with [WorkType] and its values. *)
Lemma SRE_WORK_TYPES_embedding (w : WorkType) :
  dict_get (work_type_name w) SRE_WORK_TYPES
  = Some (EnumValue (work_type_value w))
  /\ (exists reverse,
        dict_get "reverse_mapping" SRE_WORK_TYPES
        = Some (ReverseMapping reverse)
        /\ reverse !! work_type_value w = Some (work_type_name w))
  /\ work_type_of_value (work_type_value w) = Some w.
Proof.
  split; [by destruct w; vm_compute|]. split; [|by destruct w].
  eexists. split; [reflexivity|]. by destruct w; vm_compute.
Qed.

(** ** What the assignment does to the queue *)

Lemma remove_first_count_eq (x : WorkType) (q q' : list WorkType) :
  remove_first x q = Some q' ->
  count_occ WorkType_eq_dec q x = S (count_occ WorkType_eq_dec q' x).
Proof.
  revert q'. induction q as [|y q IH]; intros q' Hr; simpl in *.
  - discriminate.
  - destruct (decide (y = x)) as [->|Hy].
    + inversion Hr; subst. by destruct (WorkType_eq_dec x x).
    + destruct (remove_first x q) as [r|]; [|discriminate].
      inversion Hr; subst. simpl.
      destruct (WorkType_eq_dec y x); [done|]. by apply IH.
Qed.

Lemma clear_first_of_type_queued (x c : WorkType) (s : SRE_team) :
  queued c (clear_first_of_type x s)
  = if decide (x = c) then Nat.pred (queued c s) else queued c s.
Proof.
  unfold clear_first_of_type, queued.
  destruct (remove_first x (work_items s)) as [q|] eqn:Hr; simpl.
  - destruct (decide (x = c)) as [<-|Hne].
    + by rewrite (remove_first_count_eq _ _ _ Hr).
    + by apply (remove_first_count x c).
  - destruct (decide (x = c)) as [<-|Hne]; [|done].
    apply remove_first_None in Hr.
    rewrite (proj1 (count_occ_not_In WorkType_eq_dec _ _)); [done|].
    intros Hin. by apply Hr, list_elem_of_In.
Qed.

Lemma add_work_queued (x c : WorkType) (s : SRE_team) :
  queued c (add_work x s)
  = (queued c s + if decide (x = c) then 1 else 0)%nat.
Proof.
  unfold add_work, queued. simpl. rewrite count_occ_app. simpl.
  destruct (WorkType_eq_dec x c), (decide (x = c)); done.
Qed.

Lemma add_scaled_operational_appends_only (cfg : Config) (s : SRE_team) :
  exists m, work_items (add_scaled_operational cfg s)
            = work_items s ++ repeat OPERATIONAL m.
Proof.
  unfold add_scaled_operational.
  destruct (operational_work s <? SRE_TEAM_MAX_OPERATIONAL cfg).
  - rewrite iter_add_work. by eexists.
  - exists 0%nat. simpl. by rewrite app_nil_r.
Qed.

(** X20.  What [assign_work] can do to the queue.  It adds a
    CROSS_TEAM_PROJECT token exactly when the first draw is above 9, and
    then also takes out one IN_TEAM_PROJECT token if there is one and at
    most two OPERATIONAL tokens; it never takes out a cross-team project or
    an onboarding, and adds at most one onboarding.  When the first draw is
    9 or less it only appends: the tokens already queued keep their
    places at the head. *)
Theorem assign_work_queue_effect (cfg : Config) (draws : nat -> Z)
    (s : SRE_team) (k : nat) :
  let s' := (assign_work cfg draws s k).1 in
  queued CROSS_TEAM_PROJECT s'
  = (queued CROSS_TEAM_PROJECT s + if (9 <? draws k)%Z then 1 else 0)%nat
  /\ queued IN_TEAM_PROJECT s'
     = (if 9 <? draws k then Nat.pred (queued IN_TEAM_PROJECT s)
        else queued IN_TEAM_PROJECT s)
  /\ (queued ONBOARDING s <= queued ONBOARDING s'
      <= queued ONBOARDING s + 1)%nat
  /\ (queued OPERATIONAL s - 2 <= queued OPERATIONAL s')%nat
  /\ (draws k <= 9 -> exists l, work_items s' = work_items s ++ l).
Proof.
  cbv zeta. unfold assign_work, randint. simpl.
  rewrite !add_scaled_operational_queued by done.
  set (s1 := if 9 <? draws k then _ else s).
  set (s2 := if _ && _ then add_work ONBOARDING _ else s1).
  assert (H2 : forall c,
             queued c s2 = queued c s1
             \/ (c = ONBOARDING /\ queued c s2 = S (queued c s1))).
  { intros c. subst s2. destruct (_ && _); [|by left].
    rewrite add_work_queued.
    change (queued c (set_onboardings (onboardings s1 + 1)
                        (set_onboarding_in_progress true s1)))
      with (queued c s1).
    destruct (decide (ONBOARDING = c)) as [<-|Hne];
      [right; split; [done|lia]|left; lia]. }
  assert (H1 : queued CROSS_TEAM_PROJECT s1
               = (queued CROSS_TEAM_PROJECT s
                  + if (9 <? draws k)%Z then 1 else 0)%nat
               /\ queued IN_TEAM_PROJECT s1
                  = (if 9 <? draws k then Nat.pred (queued IN_TEAM_PROJECT s)
                     else queued IN_TEAM_PROJECT s)
               /\ queued ONBOARDING s1 = queued ONBOARDING s
               /\ (queued OPERATIONAL s - 2 <= queued OPERATIONAL s1)%nat).
  { subst s1. destruct (9 <? draws k).
    - rewrite !clear_first_of_type_queued, !add_work_queued. simpl.
      repeat split; lia.
    - repeat split; lia. }
  destruct H1 as (Hc & Hi & Ho & Hop).
  split; [destruct (H2 CROSS_TEAM_PROJECT) as [->|[? _]]; done|].
  split; [destruct (H2 IN_TEAM_PROJECT) as [->|[? _]]; done|].
  split; [destruct (H2 ONBOARDING) as [->|[_ ->]]; lia|].
  split.
  - destruct (add_scaled_operational_appends_only cfg s2) as [m Hm].
    unfold queued at 2. rewrite Hm, count_occ_app.
    fold (queued OPERATIONAL s2).
    destruct (H2 OPERATIONAL) as [->|[? _]]; [lia|done].
  - intros Hd.
    destruct (add_scaled_operational_appends_only cfg s2) as [m ->].
    assert (Hs1 : s1 = s).
    { subst s1. by replace (9 <? draws k) with false
        by (symmetry; apply Z.ltb_ge; lia). }
    subst s2. rewrite Hs1.
    match goal with |- context [if ?b then _ else _] => destruct b end.
    + unfold add_work. simpl. rewrite <- app_assoc. by eexists.
    + by eexists.
Qed.

Lemma assign_work_queue_effect_witness :
  exists l,
    work_items (assign_work default_config onboarding_draws
                  bootstrapped.1 0).1
    = work_items bootstrapped.1 ++ l.
Proof.
  apply (assign_work_queue_effect default_config onboarding_draws
           bootstrapped.1 0).
  vm_compute. discriminate.
Defined.
